(** * Salud knowledge base: the chunk / extract / merge pipeline

    A shallow embedding of [LLMPDFExtractor] (llm_pdf_extractor.py):
    the chunker [chunk_text], the extraction client
    [extract_chunk_to_json] under its tenacity [retry] decorator, the
    merger [merge_chunk_results], and the drivers [extract_to_json] and
    [batch_process].

    Conventions of the model.
    - A Python [str] is a [string]; its characters are the 8-bit
      characters of [ascii] (code points 0..255), and [isspace] is
      Python's [str.isspace] on that range.
    - A Python [int] is a [Z]; [len] is [Z.of_nat] of the length.
    - A value produced by [json.loads] is a [json]; a [dict] is an
      association list in insertion order.
    - An exception is a value of [pyexc]; code that may raise returns a
      [result]. *)

From Stdlib Require Import List String Ascii ZArith Lia Bool Arith.
From Stdlib Require Import Floats.SpecFloat Numbers.DecimalString.
Import ListNotations.

Local Open Scope string_scope.
Local Open Scope Z_scope.

(** [l.append(x)] *)
Definition append_item {A : Type} (l : list A) (x : A) : list A :=
  (l ++ [x])%list.

(* ================================================================= *)
(** ** Python strings *)

Module PyStr.

(** [len(s)] *)
Definition len (s : string) : Z := Z.of_nat (String.length s).

(** Truth value of a string: [if s:] holds for a non-empty string. *)
Definition nonempty (s : string) : bool :=
  match s with
  | EmptyString => false
  | String _ _ => true
  end.

(** [c.isspace()] for a character below 256: TAB, LF, VT, FF, CR, the
    separators FS, GS, RS, US, the space, NEL (0x85) and NBSP (0xA0). *)
Definition isspace (c : ascii) : bool :=
  let n := N_of_ascii c in
  ((9 <=? n) && (n <=? 13) || (28 <=? n) && (n <=? 32)
   || (n =? 133) || (n =? 160))%N.

(** [s.lstrip()] *)
Fixpoint lstrip (s : string) : string :=
  match s with
  | EmptyString => EmptyString
  | String c s' => if isspace c then lstrip s' else s
  end.

(** [s.rstrip()] *)
Fixpoint rstrip (s : string) : string :=
  match s with
  | EmptyString => EmptyString
  | String c s' =>
      match rstrip s' with
      | EmptyString => if isspace c then EmptyString else String c EmptyString
      | r => String c r
      end
  end.

(** [s.strip()] *)
Definition strip (s : string) : string := rstrip (lstrip s).

(** [s.split()]: the maximal runs of non-whitespace characters of [s],
    in order.  [cur] is the run being read. *)
Fixpoint split_ws_from (cur s : string) : list string :=
  match s with
  | EmptyString => if nonempty cur then [cur] else []
  | String c s' =>
      if isspace c
      then (if nonempty cur then cur :: split_ws_from "" s'
            else split_ws_from "" s')
      else split_ws_from (cur ++ String c "") s'
  end.

Definition split_ws (s : string) : list string := split_ws_from "" s.

(** [strip_prefix sep s] is [Some rest] when [s = sep ++ rest]. *)
Fixpoint strip_prefix (sep s : string) : option string :=
  match sep, s with
  | EmptyString, _ => Some s
  | String a sep', String b s' =>
      if Ascii.eqb a b then strip_prefix sep' s' else None
  | String _ _, EmptyString => None
  end.

(** [s.split(sep)] for a non-empty [sep]: the text is scanned from the
    left, every occurrence of [sep] closes the piece [cur] being read and
    the scan resumes behind the occurrence.  The recursion is on [fuel];
    every step consumes at least one character of [s], so
    [S (length s)] steps are enough (see [split_from_fuel]). *)
Fixpoint split_from (fuel : nat) (sep cur s : string) : list string :=
  match fuel with
  | O => [cur ++ s]
  | S fuel' =>
      match s with
      | EmptyString => [cur]
      | String c s' =>
          match strip_prefix sep s with
          | Some rest => cur :: split_from fuel' sep "" rest
          | None => split_from fuel' sep (cur ++ String c "") s'
          end
      end
  end.

Definition split (s sep : string) : list string :=
  split_from (S (String.length s)) sep "" s.

(** [sep.join(pieces)] *)
Fixpoint join (sep : string) (pieces : list string) : string :=
  match pieces with
  | [] => ""
  | [p] => p
  | p :: ps => p ++ sep ++ join sep ps
  end.

(** All the strings of a list, one after the other. *)
Fixpoint concat (pieces : list string) : string :=
  match pieces with
  | [] => ""
  | p :: ps => p ++ concat ps
  end.

(** The characters of [s] that are not whitespace, in order. *)
Fixpoint remove_ws (s : string) : string :=
  match s with
  | EmptyString => EmptyString
  | String c s' => if isspace c then remove_ws s' else String c (remove_ws s')
  end.

(** A word: a non-empty string without whitespace. *)
Fixpoint no_ws (s : string) : bool :=
  match s with
  | EmptyString => true
  | String c s' => negb (isspace c) && no_ws s'
  end.

Definition is_word (s : string) : bool := nonempty s && no_ws s.

(** [sub in s]: [sub] is a part of [s]. *)
Fixpoint contains (s sub : string) : bool :=
  match strip_prefix sub s with
  | Some _ => true
  | None =>
      match s with
      | EmptyString => false
      | String _ s' => contains s' sub
      end
  end.

End PyStr.

Import PyStr.

(* ================================================================= *)
(** ** The chunker *)

Module Chunker.

(** The page marker token the text is split on. *)
Definition marker : string := "--- Page".

(** The inner loop of the forced split (lines 93-99): [chunks] is the
    list of the chunks sealed so far, [temp_chunk] the chunk being
    filled. *)
Fixpoint pack_words (max_chars : Z) (words : list string)
    (chunks : list string) (temp_chunk : string) : list string * string :=
  match words with
  | [] => (chunks, temp_chunk)
  | word :: rest =>
      if len temp_chunk + len word + 1 <=? max_chars
      then pack_words max_chars rest chunks (temp_chunk ++ word ++ " ")
      else pack_words max_chars rest
             (if nonempty temp_chunk then append_item chunks temp_chunk else chunks)
             (word ++ " ")
  end.

(** [page_text] of line 82: the marker is put back in front of a page,
    unless the page compares equal to [pages[0]]. *)
Definition page_text_of (first page : string) : string :=
  if negb (String.eqb page first) then marker ++ page else page.

(** One iteration of the loop over the pages (lines 78-108), on the
    state [(chunks, current_chunk)]. *)
Definition page_step (max_chars : Z) (first : string)
    (st : list string * string) (page : string) : list string * string :=
  let '(chunks, current_chunk) := st in
  if negb (nonempty (strip page)) then st
  else
    let page_text := page_text_of first page in
    if len page_text >? max_chars then
      let chunks1 :=
        if nonempty current_chunk then append_item chunks current_chunk else chunks in
      let '(chunks2, temp_chunk) :=
        pack_words max_chars (split_ws page_text) chunks1 "" in
      (if nonempty temp_chunk then append_item chunks2 temp_chunk else chunks2, "")
    else if len current_chunk + len page_text <=? max_chars then
      (chunks, current_chunk ++ page_text)
    else
      (append_item chunks current_chunk, page_text).

(** [chunk_text(text, max_chars)] *)
Definition chunk_text (text : string) (max_chars : Z) : list string :=
  if len text <=? max_chars then [text]
  else
    let pages := split text marker in
    let '(chunks, current_chunk) :=
      fold_left (page_step max_chars (hd "" pages)) pages ([], "") in
    if nonempty current_chunk then append_item chunks current_chunk else chunks.

End Chunker.

Import Chunker.

(* ================================================================= *)
(** ** JSON values and Python dictionaries *)

Module Json.

(** What [json.loads] returns: [None], [bool], [int], [float], [str],
    [list] and [dict]. *)
#[warnings="-register-all"]
Inductive json : Type :=
| JNull
| JBool (b : bool)
| JInt (n : Z)
| JFloat (f : spec_float)
| JStr (s : string)
| JList (items : list json)
| JDict (entries : list (string * json)).

(** A [dict] with string keys, as the list of its entries in insertion
    order.  The entry seen for a key is the first one of the list; the
    operations below never add a second entry for a key. *)
Definition dict : Type := list (string * json).

(** The truth value of [v] in [if v:]. *)
Definition truthy (v : json) : bool :=
  match v with
  | JNull => false
  | JBool b => b
  | JInt n => negb (n =? 0)
  | JFloat (S754_zero _) => false
  | JFloat _ => true
  | JStr s => nonempty s
  | JList [] => false
  | JList (_ :: _) => true
  | JDict [] => false
  | JDict (_ :: _) => true
  end.

(** [d.get(key)] *)
Fixpoint dict_get (d : dict) (key : string) : option json :=
  match d with
  | [] => None
  | (k, v) :: d' => if String.eqb k key then Some v else dict_get d' key
  end.

(** [key in d] *)
Definition dict_mem (d : dict) (key : string) : bool :=
  match dict_get d key with
  | Some _ => true
  | None => false
  end.

(** [d[key]], for a key of [d] (the merger only indexes its own record,
    whose thirteen keys are fixed, see [merge_fold_keys]). *)
Definition getitem (d : dict) (key : string) : json :=
  match dict_get d key with
  | Some v => v
  | None => JNull
  end.

(** [d[key] = v]: the value is replaced in place, a new key goes last. *)
Fixpoint dict_set (d : dict) (key : string) (v : json) : dict :=
  match d with
  | [] => [(key, v)]
  | (k, w) :: d' =>
      if String.eqb k key then (k, v) :: d' else (k, w) :: dict_set d' key v
  end.

(** [d.items()]: one pair per key, in insertion order. *)
Fixpoint dict_items (d : dict) : list (string * json) :=
  match d with
  | [] => []
  | (k, v) :: d' =>
      (k, v) :: filter (fun kv => negb (String.eqb (fst kv) k)) (dict_items d')
  end.

(** [d.update(other)] *)
Definition dict_update (d other : dict) : dict :=
  fold_left (fun acc kv => dict_set acc (fst kv) (snd kv)) (dict_items other) d.

Definition as_dict (v : json) : dict :=
  match v with
  | JDict d => d
  | _ => []
  end.

Definition as_list (v : json) : list json :=
  match v with
  | JList l => l
  | _ => []
  end.

(** Exceptions: the class name and [str(e)]. *)
Record pyexc : Type := Exc { exc_type : string; exc_msg : string }.

Inductive result (A : Type) : Type :=
| Ok (a : A)
| Raise (e : pyexc).

Arguments Ok {A} a.
Arguments Raise {A} e.

(** Numbers as [==] and [hash] see them: [True] is 1, an [int] and a
    finite [float] are the dyadic number [m * 2^e]. *)
Inductive pynum : Type :=
| Dyadic (m e : Z)
| Infinite (negative : bool)
| NaN.

Definition num_of (v : json) : option pynum :=
  match v with
  | JBool b => Some (Dyadic (if b then 1 else 0) 0)
  | JInt n => Some (Dyadic n 0)
  | JFloat (S754_zero _) => Some (Dyadic 0 0)
  | JFloat (S754_infinity s) => Some (Infinite s)
  | JFloat S754_nan => Some NaN
  | JFloat (S754_finite s m e) =>
      Some (Dyadic (if s then Z.neg m else Z.pos m) e)
  | _ => None
  end.

(** Two members of a [set] are the same member when they are the same
    object or compare equal; the NaN of [json.loads] is one object. *)
Definition same_num (a b : pynum) : bool :=
  match a, b with
  | Dyadic m1 e1, Dyadic m2 e2 =>
      let e := Z.min e1 e2 in
      m1 * 2 ^ (e1 - e) =? m2 * 2 ^ (e2 - e)
  | Infinite s1, Infinite s2 => Bool.eqb s1 s2
  | NaN, NaN => true
  | _, _ => false
  end.

Definition same_member (a b : json) : bool :=
  match a, b with
  | JNull, JNull => true
  | JStr s1, JStr s2 => String.eqb s1 s2
  | _, _ =>
      match num_of a, num_of b with
      | Some x, Some y => same_num x y
      | _, _ => false
      end
  end.

(** [hash(v)] raises [TypeError] on a [list] and on a [dict]. *)
Definition unhashable (v : json) : option pyexc :=
  match v with
  | JList _ => Some (Exc "TypeError" "unhashable type: 'list'")
  | JDict _ => Some (Exc "TypeError" "unhashable type: 'dict'")
  | _ => None
  end.

(** [list(set(l))].  The members are added in the order of [l]; the
    order in which Python lists a set is unspecified, the model lists
    the members in the order of their first occurrence. *)
Fixpoint set_of (seen : list json) (l : list json) : result (list json) :=
  match l with
  | [] => Ok seen
  | x :: l' =>
      match unhashable x with
      | Some e => Raise e
      | None =>
          set_of (if existsb (same_member x) seen then seen
                  else append_item seen x) l'
      end
  end.

Definition list_set (l : list json) : result (list json) := set_of [] l.

End Json.

Import Json.

(* ================================================================= *)
(** ** The merger *)

Module Merger.

Definition scalar_keys : list string :=
  ["insurance_provider"; "plan_name"; "plan_type"; "document_type";
   "effective_date"; "state_specific"].

Definition nested_keys : list string :=
  ["coverage_details"; "prior_authorization"; "timely_filing";
   "appeals_process"; "contact_information"].

(** The record [merged] of lines 158-172. *)
Definition initial_merged : dict :=
  [("insurance_provider", JNull); ("plan_name", JNull); ("plan_type", JNull);
   ("document_type", JNull); ("effective_date", JNull);
   ("state_specific", JNull); ("coverage_details", JDict []);
   ("prior_authorization", JDict []); ("timely_filing", JDict []);
   ("appeals_process", JDict []); ("key_requirements", JList []);
   ("contact_information", JDict []); ("additional_info", JList [])].

(** Lines 181-182, for one scalar key. *)
Definition merge_scalar (chunk_result merged : dict) (key : string) : dict :=
  match dict_get chunk_result key with
  | Some v =>
      if truthy v && negb (truthy (getitem merged key))
      then dict_set merged key v
      else merged
  | None => merged
  end.

(** Lines 187-188, for one nested key. *)
Definition merge_nested (chunk_result merged : dict) (key : string) : dict :=
  match dict_get chunk_result key with
  | Some (JDict d) =>
      dict_set merged key (JDict (dict_update (as_dict (getitem merged key)) d))
  | _ => merged
  end.

(** Lines 191-192. *)
Definition merge_requirements (chunk_result merged : dict) : dict :=
  match dict_get chunk_result "key_requirements" with
  | Some (JList l) =>
      dict_set merged "key_requirements"
        (JList (as_list (getitem merged "key_requirements") ++ l)%list)
  | _ => merged
  end.

(** Lines 196-200, for one item of the chunk result. *)
Definition merge_additional (merged : dict) (item : string * json) : dict :=
  let '(key, value) := item in
  if negb (dict_mem merged key) && truthy value then
    match value with
    | JList l =>
        dict_set merged "additional_info"
          (JList (as_list (getitem merged "additional_info") ++ l)%list)
    | JStr s =>
        dict_set merged "additional_info"
          (JList (append_item (as_list (getitem merged "additional_info"))
                    (JStr (key ++ ": " ++ s))))
    | _ => merged
    end
  else merged.

(** The body of the loop over the chunk results (lines 175-200). *)
Definition merge_step (merged chunk_result : dict) : dict :=
  if dict_mem chunk_result "error" then merged
  else
    let merged1 := fold_left (merge_scalar chunk_result) scalar_keys merged in
    let merged2 := fold_left (merge_nested chunk_result) nested_keys merged1 in
    let merged3 := merge_requirements chunk_result merged2 in
    fold_left merge_additional (dict_items chunk_result) merged3.

(** The loop of lines 174-200, from the record [merged]. *)
Definition merge_fold (chunk_results : list dict) : dict :=
  fold_left merge_step chunk_results initial_merged.

(** Lines 203-204: the requirements are deduplicated through a set. *)
Definition dedupe_requirements (merged : dict) : result dict :=
  if truthy (getitem merged "key_requirements") then
    match list_set (as_list (getitem merged "key_requirements")) with
    | Ok l => Ok (dict_set merged "key_requirements" (JList l))
    | Raise e => Raise e
    end
  else Ok merged.

(** [merge_chunk_results(chunk_results)] *)
Definition merge_chunk_results (chunk_results : list dict) : result dict :=
  dedupe_requirements (merge_fold chunk_results).

(** *** Chunk results that are not objects

    [merge_chunk_results] above is the merger on its declared argument,
    a list of objects.  What [json.loads] returned for a chunk can be
    any JSON value; the loop of lines 174-200 on such a value is
    [merge_step_json]. *)

(** The name of the type of a value in an error message. *)
Definition type_name (v : json) : string :=
  match v with
  | JNull => "NoneType"
  | JBool _ => "bool"
  | JInt _ => "int"
  | JFloat _ => "float"
  | JStr _ => "str"
  | JList _ => "list"
  | JDict _ => "dict"
  end.

(** [key in c] for a string [key]: a key of an object, a member of a
    list, a part of a string; [TypeError] for any other value. *)
Definition py_in (key : string) (c : json) : result bool :=
  match c with
  | JDict d => Ok (dict_mem d key)
  | JList l =>
      Ok (existsb (fun x => match x with
                            | JStr s => String.eqb s key
                            | _ => false
                            end) l)
  | JStr s => Ok (contains s key)
  | other =>
      Raise (Exc "TypeError"
               ("argument of type '" ++ type_name other ++ "' is not iterable"))
  end.

(** The keys the loop looks up with [key in chunk_result] before it
    indexes the chunk result (lines 179-191), in that order. *)
Definition looked_up_keys : list string :=
  (scalar_keys ++ nested_keys ++ ["key_requirements"])%list.

(** One chunk result, whatever [json.loads] returned.  An object is
    merged.  A list with the member ["error"] and a string with the part
    ["error"] are skipped by line 175; any other list or string raises:
    [TypeError] at [chunk_result[key]] for the first key found in it,
    [AttributeError] at [chunk_result.items()] when none is.  A number,
    a boolean and null raise [TypeError] at line 175. *)
Definition merge_step_json (merged : dict) (chunk_result : json) : result dict :=
  match chunk_result with
  | JDict d => Ok (merge_step merged d)
  | _ =>
      match py_in "error" chunk_result with
      | Raise e => Raise e
      | Ok true => Ok merged
      | Ok false =>
          if existsb (fun key => match py_in key chunk_result with
                                 | Ok b => b
                                 | Raise _ => false
                                 end) looked_up_keys
          then
            Raise (Exc "TypeError"
                     (match chunk_result with
                      | JList _ =>
                          "list indices must be integers or slices, not str"
                      | _ => "string indices must be integers, not 'str'"
                      end))
          else
            Raise (Exc "AttributeError"
                     ("'" ++ type_name chunk_result
                          ++ "' object has no attribute 'items'"))
      end
  end.

(** The loop of lines 174-200 stops at the first chunk result that
    raises. *)
Fixpoint merge_loop (merged : dict) (chunk_results : list json) : result dict :=
  match chunk_results with
  | [] => Ok merged
  | chunk_result :: rest =>
      match merge_step_json merged chunk_result with
      | Ok merged' => merge_loop merged' rest
      | Raise e => Raise e
      end
  end.

(** [merge_chunk_results(chunk_results)] on what the calls returned. *)
Definition merge_chunk_results_json (chunk_results : list json) : result dict :=
  match merge_loop initial_merged chunk_results with
  | Ok merged => dedupe_requirements merged
  | Raise e => Raise e
  end.

End Merger.

Import Merger.

(* ================================================================= *)
(** ** The outside world and the run monad *)

Module Run.

(** What one request to the extraction service does inside the [try]
    block of [extract_chunk_to_json]: the request or [json.loads] raises
    [e], or the response parses to the value [r], an object or any
    other JSON value. *)
Inductive attempt : Type :=
| Fails (e : pyexc)
| Responds (r : json).

(** The collaborators of a run.
    - [pdf_pages path]: what pdfplumber finds, [None] when opening or
      reading the file raises, otherwise the text of each page (the empty
      string for a page without text).
    - [service k text_chunk]: the outcome of the [k]-th request of the
      run (counted from 0), made for [text_chunk].
    - [file_size_mb path]: [round(os.path.getsize(path) / (1024*1024), 2)].
    - [makedirs_error dir]: the exception of
      [os.makedirs(dir, exist_ok=True)] for a directory name that is not
      empty, [None] when it succeeds.
    - [write_error k path]: the exception of opening [path] for writing
      and dumping into it when [k] files have been written, [None] when
      the write succeeds.
    The model name is the one given to the constructor. *)
Record World : Type := {
  pdf_pages : string -> option (list string);
  service : nat -> string -> attempt;
  file_size_mb : string -> spec_float;
  model : string;
  makedirs_error : string -> option pyexc;
  write_error : nat -> string -> option pyexc
}.

(** The state threaded through a run: the number of requests made so far
    and the files written, latest first. *)
Record Store : Type := {
  requests : nat;
  written : list (string * json)
}.

Definition Run (A : Type) : Type := Store -> result A * Store.

Definition ret {A : Type} (a : A) : Run A := fun st => (Ok a, st).

Definition bind {A B : Type} (m : Run A) (k : A -> Run B) : Run B :=
  fun st =>
    match m st with
    | (Ok a, st') => k a st'
    | (Raise e, st') => (Raise e, st')
    end.

Definition lift {A : Type} (r : result A) : Run A := fun st => (r, st).

(** [try: m  except Exception as e: handler e] *)
Definition try_except {A : Type} (m : Run A) (handler : pyexc -> Run A)
  : Run A :=
  fun st =>
    match m st with
    | (Ok a, st') => (Ok a, st')
    | (Raise e, st') => handler e st'
    end.

Notation "x <- m ;; k" := (bind m (fun x => k))
  (at level 61, m at next level, right associativity).

(** One request to the service. *)
Definition request (w : World) (text_chunk : string) : Run json :=
  fun st =>
    (match service w (requests st) text_chunk with
     | Fails e => Raise e
     | Responds r => Ok r
     end,
     {| requests := S (requests st); written := written st |}).

(** [os.makedirs(dir, exist_ok=True)]; the empty name is no directory
    and raises [FileNotFoundError]. *)
Definition makedirs (w : World) (dir : string) : Run unit :=
  fun st =>
    match (if nonempty dir then makedirs_error w dir
           else Some (Exc "FileNotFoundError"
                          "[Errno 2] No such file or directory: ''")) with
    | Some e => (Raise e, st)
    | None => (Ok tt, st)
    end.

(** [with open(path, 'w') as f: json.dump(data, f)]; a write that raises
    leaves no file in the record of the files written. *)
Definition write_json (w : World) (path : string) (data : json) : Run unit :=
  fun st =>
    match write_error w (List.length (written st)) path with
    | Some e => (Raise e, st)
    | None =>
        (Ok tt,
         {| requests := requests st; written := (path, data) :: written st |})
    end.

End Run.

Import Run.

(* ================================================================= *)
(** ** The extraction client *)

Module Client.

(** tenacity's [retry]: the call is made again while it raises;
    [remaining] is the number of attempts left after this one.  When
    none is left tenacity raises [RetryError]. *)
Fixpoint retry_from {A : Type} (remaining : nat) (f : Run A) : Run A :=
  fun st =>
    match f st with
    | (Ok a, st') => (Ok a, st')
    | (Raise e, st') =>
        match remaining with
        | O => (Raise (Exc "RetryError" "RetryError"), st')
        | S remaining' => retry_from remaining' f st'
        end
    end.

(** [@retry(stop=stop_after_attempt(n))], for [n >= 1]. *)
Definition retry {A : Type} (stop_after_attempt : nat) (f : Run A) : Run A :=
  retry_from (Nat.pred stop_after_attempt) f.

(** The record returned by the [except] branch (line 153). *)
Definition error_record (e : pyexc) (chunk_num : Z) : dict :=
  [("error", JStr (exc_msg e)); ("chunk", JInt chunk_num)].

(** The body of [extract_chunk_to_json] (lines 120-153): the request and
    the parse are inside [try], and every exception is turned into the
    error record. *)
Definition extract_chunk_body (w : World) (text_chunk : string)
    (chunk_num total_chunks : Z) : Run json :=
  try_except (request w text_chunk)
             (fun e => ret (JDict (error_record e chunk_num))).

(** [extract_chunk_to_json], the body under [@retry(stop_after_attempt(3))]. *)
Definition extract_chunk_to_json (w : World) (text_chunk : string)
    (chunk_num total_chunks : Z) : Run json :=
  retry 3 (extract_chunk_body w text_chunk chunk_num total_chunks).

End Client.

Import Client.

(* ================================================================= *)
(** ** Documents and batches *)

Module Batch.

Definition newline : string := String (ascii_of_nat 10) "".

(** [str(n)] for a page number. *)
Definition str_of_nat (n : nat) : string :=
  DecimalString.NilZero.string_of_uint (Nat.to_uint n).

(** Lines 47-50: the pages with text, each behind its marker;
    [page_num] is the number of the first page of [pages]. *)
Fixpoint text_content (page_num : nat) (pages : list string) : list string :=
  match pages with
  | [] => []
  | text :: rest =>
      if nonempty text
      then ("--- Page " ++ str_of_nat page_num ++ " ---" ++ newline ++ text)
             :: text_content (S page_num) rest
      else text_content (S page_num) rest
  end.

(** [extract_text_from_pdf(pdf_path)]: every exception is caught and the
    empty string returned. *)
Definition extract_text_from_pdf (w : World) (pdf_path : string) : string :=
  match pdf_pages w pdf_path with
  | Some pages => join (newline ++ newline) (text_content 1 pages)
  | None => ""
  end.

Definition max_chars_per_chunk : Z := 20000.

(** [s.rpartition(c)]: the parts before and after the last [c]. *)
Fixpoint rpartition (c : ascii) (s : string) : option (string * string) :=
  match s with
  | EmptyString => None
  | String a s' =>
      match rpartition c s' with
      | Some (l, r) => Some (String a l, r)
      | None => if Ascii.eqb a c then Some ("", s') else None
      end
  end.

(** [os.path.basename(path)] *)
Definition basename (path : string) : string :=
  match rpartition "/" path with
  | Some (_, r) => r
  | None => path
  end.

Fixpoint all_dots (s : string) : bool :=
  match s with
  | EmptyString => true
  | String c s' => Ascii.eqb c "." && all_dots s'
  end.

(** [os.path.splitext(name)[0]] for a name without directory part. *)
Definition splitext_root (name : string) : string :=
  match rpartition "." name with
  | Some (l, _) => if all_dots l then name else l
  | None => name
  end.

Fixpoint ends_with_slash (s : string) : bool :=
  match s with
  | EmptyString => false
  | String c EmptyString => Ascii.eqb c "/"
  | String _ s' => ends_with_slash s'
  end.

(** [os.path.join(dir, name)] for a name without directory part. *)
Definition path_join (dir name : string) : string :=
  if negb (nonempty dir) || ends_with_slash dir then dir ++ name
  else dir ++ "/" ++ name.

(** Lines 235-238: the chunks are numbered from [i]. *)
Fixpoint extract_chunks (w : World) (i total : Z) (chunks : list string)
  : Run (list json) :=
  match chunks with
  | [] => ret []
  | chunk :: rest =>
      chunk_result <- extract_chunk_to_json w chunk i total ;;
      chunk_results <- extract_chunks w (i + 1) total rest ;;
      ret (chunk_result :: chunk_results)
  end.

(** [result["_metadata"] = metadata] (line 245) on what the single call
    returned: an object takes the key, any other value raises
    [TypeError]. *)
Definition set_metadata (result : json) (metadata : json) : Json.result dict :=
  match result with
  | JDict d => Ok (dict_set d "_metadata" metadata)
  | JList _ =>
      Raise (Exc "TypeError" "list indices must be integers or slices, not str")
  | other =>
      Raise (Exc "TypeError"
               ("'" ++ type_name other
                    ++ "' object does not support item assignment"))
  end.

(** [extract_to_json(pdf_path)] *)
Definition extract_to_json (w : World) (pdf_path : string) : Run dict :=
  let pdf_text := extract_text_from_pdf w pdf_path in
  if negb (nonempty pdf_text) then
    ret [("error", JStr "Failed to extract text from PDF");
         ("file", JStr pdf_path)]
  else
    let metadata :=
      JDict
        [("source_file", JStr (basename pdf_path));
         ("file_size_mb", JFloat (file_size_mb w pdf_path));
         ("model_used", JStr (model w));
         ("extraction_method",
          JStr (if len pdf_text >? max_chars_per_chunk
                then "groq_llm_chunked" else "groq_llm"))] in
    if len pdf_text <=? max_chars_per_chunk then
      result <- extract_chunk_to_json w pdf_text 1 1 ;;
      lift (set_metadata result metadata)
    else
      let chunks := chunk_text pdf_text max_chars_per_chunk in
      chunk_results <-
        extract_chunks w 1 (Z.of_nat (List.length chunks)) chunks ;;
      result <- lift (merge_chunk_results_json chunk_results) ;;
      ret (dict_set result "_metadata" metadata).

(** [results["successful"] += 1] and the like. *)
Definition increment (results : dict) (key : string) : dict :=
  match getitem results key with
  | JInt n => dict_set results key (JInt (n + 1))
  | _ => results
  end.

(** [results["files"].append(entry)] *)
Definition append_file (results : dict) (entry : dict) : dict :=
  dict_set results "files"
    (JList (append_item (as_list (getitem results "files")) (JDict entry))).

(** The body of the loop of [batch_process] (lines 335-361). *)
Definition process_one (w : World) (output_dir : string) (results : dict)
    (pdf_path : string) : Run dict :=
  try_except
    (json_data <- extract_to_json w pdf_path ;;
     let filename := splitext_root (basename pdf_path) in
     let output_path := path_join output_dir (filename ++ ".json") in
     _ <- write_json w output_path (JDict json_data) ;;
     ret (append_file (increment results "successful")
            [("input", JStr pdf_path); ("output", JStr output_path);
             ("status", JStr "success")]))
    (fun e =>
       ret (append_file (increment results "failed")
              [("input", JStr pdf_path); ("output", JNull);
               ("status", JStr "failed"); ("error", JStr (exc_msg e))])).

Fixpoint process_all (w : World) (output_dir : string) (results : dict)
    (pdf_paths : list string) : Run dict :=
  match pdf_paths with
  | [] => ret results
  | pdf_path :: rest =>
      results' <- process_one w output_dir results pdf_path ;;
      process_all w output_dir results' rest
  end.

(** [batch_process(pdf_paths, output_dir)] *)
Definition batch_process (w : World) (pdf_paths : list string)
    (output_dir : string) : Run dict :=
  _ <- makedirs w output_dir ;;
  let results :=
    [("total", JInt (Z.of_nat (List.length pdf_paths)));
     ("successful", JInt 0); ("failed", JInt 0); ("files", JList [])] in
  results' <- process_all w output_dir results pdf_paths ;;
  _ <- write_json w (path_join output_dir "_batch_summary.json")
         (JDict results') ;;
  ret results'.

End Batch.

Import Batch.

(* ================================================================= *)
(** ** Notions used to state the properties *)

Module Spec.

(** A page that [chunk_text] skips: nothing but whitespace. *)
Definition blank (page : string) : bool := negb (nonempty (strip page)).

(** A piece behind a marker is not blank and equal to the piece in front
    of the first marker. *)
Definition repeats_first (text : string) : bool :=
  match split text marker with
  | [] => false
  | first :: rest =>
      existsb (fun page => String.eqb page first && negb (blank page)) rest
  end.

(** The text without its blank pages: the piece in front of the first
    marker, then every non-blank piece behind its marker. *)
Definition kept_text (text : string) : string :=
  match split text marker with
  | [] => ""
  | first :: rest =>
      (if blank first then "" else first)
      ++ concat (map (append marker)
                   (filter (fun page => negb (blank page)) rest))
  end.

(** The pieces of a text, each with its page: the text in front of the
    first marker, which is its own page, then every marker with the
    page behind it. *)
Definition pieces (text : string) : list (string * string) :=
  match split text marker with
  | [] => []
  | first :: rest =>
      (first, first) :: map (fun body => (marker ++ body, body)) rest
  end.

(** A text written word by word, one space behind each word, as the
    forced split writes a page (lines 91-101). *)
Definition respaced (s : string) : string :=
  concat (map (fun w => w ++ " ") (split_ws s)).

(** What the chunks hold of a piece: nothing when its page is blank, the
    piece word by word when it is longer than the maximum, the piece
    itself otherwise. *)
Definition kept_piece (max_chars : Z) (piece : string * string) : string :=
  let '(piece_text, body) := piece in
  if blank body then ""
  else if len piece_text >? max_chars then respaced piece_text
  else piece_text.

(** The text [kept] that the chunks hold of a piece, as a relation:
    nothing for a piece whose page is blank; the characters of the piece
    in order, whitespace apart, for a piece longer than the maximum; the
    piece itself otherwise. *)
Definition piece_kept (max_chars : Z) (piece : string * string)
    (kept : string) : Prop :=
  let '(piece_text, body) := piece in
  if blank body then kept = ""
  else if len piece_text >? max_chars
       then remove_ws kept = remove_ws piece_text
       else kept = piece_text.

(** What a page adds to the chunks, whitespace apart. *)
Definition contribution (first page : string) : string :=
  if blank page then "" else remove_ws (page_text_of first page).

(** The first and the last result of [report] over the chunk results in
    order. *)
Fixpoint first_some (report : dict -> option json) (chunk_results : list dict)
  : option json :=
  match chunk_results with
  | [] => None
  | r :: rest =>
      match report r with
      | Some v => Some v
      | None => first_some report rest
      end
  end.

Definition last_some (report : dict -> option json) (chunk_results : list dict)
  : option json :=
  fold_left (fun acc r => match report r with Some v => Some v | None => acc end)
            chunk_results None.

Definition or_null (o : option json) : json :=
  match o with
  | Some v => v
  | None => JNull
  end.

(** What a chunk result reports for a scalar field, as the merger reads
    it: the value of the key when the result has no error marker and the
    value is truthy. *)
Definition scalar_report (key : string) (r : dict) : option json :=
  if dict_mem r "error" then None
  else
    match dict_get r key with
    | Some v => if truthy v then Some v else None
    | None => None
    end.

(** What a chunk result reports for a scalar field, as the comment of
    line 178 words it: a value that is not null. *)
Definition non_null_report (key : string) (r : dict) : option json :=
  match dict_get r key with
  | Some JNull => None
  | o => o
  end.

(** What a chunk result reports for the sub-key [sub] of a nested field,
    as the merger reads it: the value of the sub-key, null or not, when
    the result has no error marker and the field is an object. *)
Definition nested_report (key sub : string) (r : dict) : option json :=
  if dict_mem r "error" then None
  else
    match dict_get r key with
    | Some (JDict d) => dict_get d sub
    | _ => None
    end.

(** The same when only a value that is not null counts. *)
Definition nested_non_null_report (key sub : string) (r : dict) : option json :=
  match nested_report key sub r with
  | Some JNull => None
  | o => o
  end.

(** One step of "first truthy value wins" on the value [acc] of a scalar
    field. *)
Definition scalar_update (key : string) (acc : json) (r : dict) : json :=
  match scalar_report key r with
  | Some v => if truthy acc then acc else v
  | None => acc
  end.

(** The entries of a nested field of a merged record. *)
Definition nested_entries (merged : dict) (key : string) : dict :=
  as_dict (getitem merged key).

(** The keys of the record [merged]; they never change. *)
Definition merged_keys : list string := map fst initial_merged.

Definition has_keys (merged : dict) : Prop := map fst merged = merged_keys.

Definition is_object (v : json) : Prop := exists d, v = JDict d.

Definition hashable (v : json) : Prop := unhashable v = None.

(** The requirements a chunk result adds (lines 175-176, 191-192). *)
Definition req_report (r : dict) : list json :=
  if dict_mem r "error" then []
  else
    match dict_get r "key_requirements" with
    | Some (JList l) => l
    | _ => []
    end.

End Spec.

Import Spec.

(* ================================================================= *)
(** ** Scenarios *)

Module Scenarios.

(** A fresh run: no request made, no file written. *)
Definition fresh : Store := {| requests := 0; written := [] |}.

Definition rate_limited : pyexc := Exc "RateLimitError" "rate limit exceeded".

(** The service fails on the first two requests and answers from the
    third on; every directory can be made and every file written. *)
Definition flaky_world : World := {|
  pdf_pages := fun _ => Some ["Plan X"];
  service := fun k _ =>
    match k with
    | 0%nat | 1%nat => Fails rate_limited
    | _ => Responds (JDict [("plan_name", JStr "X")])
    end;
  file_size_mb := fun _ => S754_zero false;
  model := "llama-3.3-70b-versatile";
  makedirs_error := fun _ => None;
  write_error := fun _ _ => None
|}.

(** The second document of the batch cannot be read; the two others have
    one page, and the service answers every request. *)
Definition unreadable_second : World := {|
  pdf_pages := fun path =>
    if String.eqb path "doc2.pdf" then None else Some ["Plan X"];
  service := fun _ _ => Responds (JDict [("plan_name", JStr "X")]);
  file_size_mb := fun _ => S754_zero false;
  model := "llama-3.3-70b-versatile";
  makedirs_error := fun _ => None;
  write_error := fun _ _ => None
|}.

End Scenarios.

Import Scenarios.

(* ================================================================= *)
(** ** Further notions *)

Module More.

(** The record [merged] with nothing merged into it, as the merger
    returns it. *)
Definition all_null : dict := initial_merged.

(** No two members of the list are the same member of a set. *)
Definition distinct_members (l : list json) : Prop :=
  ForallOrdPairs (fun a b => same_member b a = false) l.

(** What a chunk result adds to [additional_info] (lines 175-176,
    195-200): for every key outside the thirteen keys of [merged] with a
    truthy value, the members of a list, or ["key: value"] for a string. *)
Definition additional_of_item (item : string * json) : list json :=
  let '(key, value) := item in
  if negb (existsb (fun k => String.eqb k key) merged_keys) && truthy value then
    match value with
    | JList l => l
    | JStr s => [JStr (key ++ ": " ++ s)]
    | _ => []
    end
  else [].

Definition additional_report (r : dict) : list json :=
  if dict_mem r "error" then []
  else flat_map additional_of_item (dict_items r).

(** The length of the longest run of characters of [s] without
    whitespace; [cur] is the length of the run being read. *)
Fixpoint longest_run_from (cur : nat) (s : string) : nat :=
  match s with
  | EmptyString => cur
  | String c s' =>
      if isspace c then Nat.max cur (longest_run_from 0 s')
      else longest_run_from (S cur) s'
  end.

Definition longest_run (s : string) : nat := longest_run_from 0 s.

(** The invariant of the loop over the pages when every word fits: all
    the chunks fit. *)
Definition bounded_inv (max_chars : Z) (st : list string * string) : Prop :=
  Forall (fun c => len c <= max_chars) (fst st)
  /\ (snd st = "" \/ len (snd st) <= max_chars).

(** The invariant of the loop over the pages: no sealed chunk is empty. *)
Definition nonempty_inv (st : list string * string) : Prop :=
  Forall (fun c => nonempty c = true) (fst st).

(** The text of page [page_num] behind its marker (line 50). *)
Definition page_entry (page_num : nat) (text : string) : string :=
  "--- Page " ++ str_of_nat page_num ++ " ---" ++ newline ++ text.

(** The pages that have text, each with its number:
    [enumerate(pdf.pages, 1)] without the pages of line 49. *)
Definition pages_with_text (pages : list string) : list (nat * string) :=
  filter (fun it => nonempty (snd it))
         (combine (seq 1 (List.length pages)) pages).

(** The summary of a batch (lines 325-330) with its counts and entries. *)
Definition summary (total successful failed : Z) (files : list json) : dict :=
  [("total", JInt total); ("successful", JInt successful);
   ("failed", JInt failed); ("files", JList files)].

(** The document an entry of the summary is about. *)
Definition entry_input (entry : json) : option json :=
  dict_get (as_dict entry) "input".

Definition entry_status (entry : json) : option json :=
  dict_get (as_dict entry) "status".

(** [s * n] *)
Fixpoint repeat_string (s : string) (n : nat) : string :=
  match n with
  | O => ""
  | S n' => s ++ repeat_string s n'
  end.

(** A document of one page of 25000 characters, and a service that
    fails on every request. *)
Definition service_down : World := {|
  pdf_pages := fun _ => Some [repeat_string "word " 5000];
  service := fun _ _ => Fails rate_limited;
  file_size_mb := fun _ => S754_zero false;
  model := "llama-3.3-70b-versatile";
  makedirs_error := fun _ => None;
  write_error := fun _ _ => None
|}.

(** The number of entries of a summary with a given status. *)
Definition has_status (status : string) (entry : json) : bool :=
  match entry_status entry with
  | Some (JStr s) => String.eqb s status
  | _ => false
  end.

Definition count_status (status : string) (files : list json) : Z :=
  Z.of_nat (List.length (filter (has_status status) files)).

(** The file the summary of a batch is written to (line 363). *)
Definition summary_path (output_dir : string) : string :=
  path_join output_dir "_batch_summary.json".

(** The file a document is written to (lines 338-339). *)
Definition output_path_of (output_dir pdf_path : string) : string :=
  path_join output_dir (splitext_root (basename pdf_path) ++ ".json").

(** The entries of the summary (lines 347-351 and 356-361). *)
Definition success_entry (output_dir pdf_path : string) : json :=
  JDict [("input", JStr pdf_path);
         ("output", JStr (output_path_of output_dir pdf_path));
         ("status", JStr "success")].

Definition failed_entry (pdf_path : string) (e : pyexc) : json :=
  JDict [("input", JStr pdf_path); ("output", JNull);
         ("status", JStr "failed"); ("error", JStr (exc_msg e))].

(** The entry of a document counted as successful and the file written
    for it: the file is the one named after the document, and it holds
    a record that [extract_to_json] returned for the document. *)
Definition document_written (w : World) (output_dir : string)
    (entry : json) (file : string * json) : Prop :=
  exists (pdf_path : string) (data : dict) (st : Store),
    entry = success_entry output_dir pdf_path /\
    file = (output_path_of output_dir pdf_path, JDict data) /\
    fst (extract_to_json w pdf_path st) = Ok data.

(** The metadata of a document (lines 245-250). *)
Definition metadata_of (w : World) (pdf_path : string) (method : string) : json :=
  JDict [("source_file", JStr (basename pdf_path));
         ("file_size_mb", JFloat (file_size_mb w pdf_path));
         ("model_used", JStr (model w));
         ("extraction_method", JStr method)].

(** The service answers every request with a list; and a world where no
    file can be written. *)
Definition answers_list : World := {|
  pdf_pages := fun _ => Some ["Plan X"];
  service := fun _ _ => Responds (JList [JInt 1; JInt 2]);
  file_size_mb := fun _ => S754_zero false;
  model := "llama-3.3-70b-versatile";
  makedirs_error := fun _ => None;
  write_error := fun _ _ => None
|}.

Definition read_only : World := {|
  pdf_pages := fun _ => Some ["Plan X"];
  service := fun _ _ => Responds (JDict [("plan_name", JStr "X")]);
  file_size_mb := fun _ => S754_zero false;
  model := "llama-3.3-70b-versatile";
  makedirs_error := fun _ => None;
  write_error := fun _ _ => Some (Exc "PermissionError" "[Errno 13] Permission denied")
|}.

End More.

Import More.

(* ================================================================= *)
(** ** The crawler (enhanced_crawler_with_llm.py) *)

Module Crawler.

(** [s.endswith(suffix)] *)
Fixpoint endswith (s suffix : string) : bool :=
  String.eqb s suffix
  || match s with
     | EmptyString => false
     | String _ s' => endswith s' suffix
     end.

(** Lines 32-36: [tree] is what [os.walk(pdf_directory)] yields, the
    directories with their files. *)
Definition pdf_files_of (tree : list (string * list string)) : list string :=
  flat_map (fun '(root, files) =>
              map (path_join root)
                  (filter (fun file => endswith file ".pdf") files))
           tree.

(** [process_downloaded_pdfs(pdf_directory, output_dir)] *)
Definition process_downloaded_pdfs (w : World)
    (tree : list (string * list string)) (output_dir : string) : Run dict :=
  batch_process w (pdf_files_of tree) output_dir.

End Crawler.

Import Crawler.

(* ================================================================= *)
(** * Properties *)

(** ** Strings *)

Lemma append_nil_r (s : string) : s ++ "" = s.
Proof. induction s as [|c s IH]; simpl; [reflexivity | now rewrite IH]. Qed.

Lemma append_assoc (a b c : string) : (a ++ b) ++ c = a ++ (b ++ c).
Proof. induction a as [|x a IH]; simpl; [reflexivity | now rewrite IH]. Qed.

Lemma length_append (a b : string) :
  String.length (a ++ b) = (String.length a + String.length b)%nat.
Proof. induction a as [|x a IH]; simpl; [reflexivity | now rewrite IH]. Qed.

Lemma len_append (a b : string) : len (a ++ b) = len a + len b.
Proof. unfold len. rewrite length_append. lia. Qed.

Lemma len_nonneg (s : string) : 0 <= len s.
Proof. unfold len. lia. Qed.

Lemma nonempty_false (s : string) : nonempty s = false -> s = "".
Proof. destruct s; [reflexivity | discriminate]. Qed.

Lemma nonempty_len (s : string) : nonempty s = true -> 0 < len s.
Proof. destruct s; [discriminate | unfold len; simpl; lia]. Qed.

Lemma no_ws_append (a b : string) : no_ws (a ++ b) = no_ws a && no_ws b.
Proof.
  induction a as [|x a IH]; simpl; [reflexivity|].
  rewrite IH. now rewrite andb_assoc.
Qed.

Lemma nonempty_append_r (a b : string) :
  nonempty b = true -> nonempty (a ++ b) = true.
Proof. destruct a; simpl; auto. Qed.

Lemma remove_ws_append (a b : string) :
  remove_ws (a ++ b) = remove_ws a ++ remove_ws b.
Proof.
  induction a as [|x a IH]; simpl; [reflexivity|].
  destruct (isspace x); simpl; now rewrite IH.
Qed.

Lemma remove_ws_no_ws (s : string) : no_ws s = true -> remove_ws s = s.
Proof.
  induction s as [|c s IH]; simpl; [reflexivity|].
  destruct (isspace c); simpl; [discriminate|].
  intros H. now rewrite IH.
Qed.

Lemma concat_app (l1 l2 : list string) :
  concat (l1 ++ l2)%list = concat l1 ++ concat l2.
Proof.
  induction l1 as [|p l1 IH]; simpl; [reflexivity|].
  now rewrite IH, append_assoc.
Qed.

Lemma concat_append_item (l : list string) (x : string) :
  concat (append_item l x) = concat l ++ x.
Proof. unfold append_item. rewrite concat_app. simpl. now rewrite append_nil_r. Qed.

(** *** [str.split()] *)

Lemma split_ws_from_words (s cur : string) :
  no_ws cur = true -> Forall (fun w => is_word w = true) (split_ws_from cur s).
Proof.
  revert cur. induction s as [|c s IH]; intros cur Hcur; simpl.
  - destruct (nonempty cur) eqn:E; constructor; [|constructor].
    unfold is_word. now rewrite E, Hcur.
  - destruct (isspace c) eqn:Hc.
    + destruct (nonempty cur) eqn:E.
      * constructor; [unfold is_word; now rewrite E, Hcur | now apply IH].
      * now apply IH.
    + apply IH. rewrite no_ws_append, Hcur. simpl. now rewrite Hc.
Qed.

Lemma split_ws_words (s : string) :
  Forall (fun w => is_word w = true) (split_ws s).
Proof. now apply split_ws_from_words. Qed.

Lemma concat_split_ws_from (s cur : string) :
  concat (split_ws_from cur s) = cur ++ remove_ws s.
Proof.
  revert cur. induction s as [|c s IH]; intros cur; simpl.
  - destruct (nonempty cur) eqn:E; simpl.
    + reflexivity.
    + apply nonempty_false in E. now subst.
  - destruct (isspace c).
    + destruct (nonempty cur) eqn:E; simpl.
      * now rewrite IH.
      * apply nonempty_false in E. subst. now rewrite IH.
    + rewrite IH, append_assoc. reflexivity.
Qed.

Lemma concat_split_ws (s : string) : concat (split_ws s) = remove_ws s.
Proof. apply concat_split_ws_from. Qed.

(** *** [str.strip()] *)

Lemma remove_ws_lstrip (s : string) : remove_ws (lstrip s) = remove_ws s.
Proof.
  induction s as [|c s IH]; simpl; [reflexivity|].
  destruct (isspace c) eqn:Hc; [exact IH|].
  simpl. now rewrite Hc.
Qed.

Lemma rstrip_empty (s : string) : rstrip s = "" -> remove_ws s = "".
Proof.
  induction s as [|c s IH]; simpl; [reflexivity|].
  destruct (rstrip s); [|discriminate].
  destruct (isspace c); [auto | discriminate].
Qed.

Lemma strip_blank (s : string) : nonempty (strip s) = false -> remove_ws s = "".
Proof.
  intros H. apply nonempty_false in H. unfold strip in H.
  apply rstrip_empty in H. now rewrite remove_ws_lstrip in H.
Qed.

(** *** [str.split(sep)] *)

Lemma strip_prefix_Some (sep s rest : string) :
  strip_prefix sep s = Some rest -> s = sep ++ rest.
Proof.
  revert s. induction sep as [|a sep IH]; intros s H; simpl in *.
  - now inversion H.
  - destruct s as [|b s]; [discriminate|].
    destruct (Ascii.eqb a b) eqn:E; [|discriminate].
    apply Ascii.eqb_eq in E. subst b. now rewrite (IH _ H).
Qed.

Lemma split_from_not_nil (fuel : nat) (sep cur s : string) :
  split_from fuel sep cur s <> [].
Proof.
  revert cur s. induction fuel as [|fuel IH]; intros cur s; simpl.
  - discriminate.
  - destruct s as [|c s]; [discriminate|].
    destruct (strip_prefix sep (String c s)); [discriminate | apply IH].
Qed.

Lemma join_cons (sep p : string) (ps : list string) :
  ps <> [] -> join sep (p :: ps) = p ++ sep ++ join sep ps.
Proof. destruct ps; [congruence | reflexivity]. Qed.

Lemma join_split_from (fuel : nat) (sep cur s : string) :
  join sep (split_from fuel sep cur s) = cur ++ s.
Proof.
  revert cur s. induction fuel as [|fuel IH]; intros cur s; simpl.
  - reflexivity.
  - destruct s as [|c s]; [now rewrite append_nil_r|].
    destruct (strip_prefix sep (String c s)) as [rest|] eqn:E.
    + rewrite join_cons by apply split_from_not_nil.
      rewrite IH. simpl. apply strip_prefix_Some in E. now rewrite E.
    + rewrite IH, append_assoc. reflexivity.
Qed.

(** Joining the pieces of [s.split(sep)] with [sep] gives [s] back. *)
Lemma join_split (s sep : string) : join sep (split s sep) = s.
Proof. unfold split. now rewrite join_split_from. Qed.

Lemma strip_prefix_length (sep s rest : string) :
  strip_prefix sep s = Some rest ->
  String.length s = (String.length sep + String.length rest)%nat.
Proof.
  intros H. apply strip_prefix_Some in H. subst. apply length_append.
Qed.

(** The fuel of [split] is enough: any fuel above the length of the text
    gives the same pieces. *)
Lemma split_from_fuel (sep : string) (f1 f2 : nat) (cur s : string) :
  nonempty sep = true ->
  (String.length s < f1)%nat -> (String.length s < f2)%nat ->
  split_from f1 sep cur s = split_from f2 sep cur s.
Proof.
  intros Hsep. revert f2 cur s.
  induction f1 as [|f1 IH]; intros f2 cur s H1 H2; [lia|].
  destruct f2 as [|f2]; [lia|]. simpl.
  destruct s as [|c s]; [reflexivity|].
  destruct (strip_prefix sep (String c s)) as [rest|] eqn:E.
  - f_equal. apply strip_prefix_length in E.
    assert (0 < String.length sep)%nat
      by (destruct sep; [discriminate | simpl; lia]).
    apply IH; lia.
  - simpl in H1, H2. apply IH; lia.
Qed.

(** The equations of [s.split(sep)]: the empty text is one empty piece;
    at an occurrence of [sep] an empty piece is closed and the scan goes
    on behind it; any other character goes to the first piece of the
    rest. *)
Lemma split_from_cur (fuel : nat) (sep cur s : string) :
  split_from fuel sep cur s
  = match split_from fuel sep "" s with
    | [] => [cur]
    | p :: ps => (cur ++ p) :: ps
    end.
Proof.
  revert cur s. induction fuel as [|fuel IH]; intros cur s; simpl.
  - reflexivity.
  - destruct s as [|c s]; [now rewrite append_nil_r|].
    destruct (strip_prefix sep (String c s)) as [rest|].
    + now rewrite append_nil_r.
    + rewrite (IH (cur ++ String c "")), (IH (String c "")).
      destruct (split_from fuel sep "" s) as [|p ps]; [reflexivity|].
      now rewrite append_assoc.
Qed.

Lemma split_empty (sep : string) : split "" sep = [""].
Proof. reflexivity. Qed.

Lemma split_from_step (fuel : nat) (sep cur s : string) (c : ascii) :
  split_from (S fuel) sep cur (String c s)
  = match strip_prefix sep (String c s) with
    | Some rest => cur :: split_from fuel sep "" rest
    | None => split_from fuel sep (cur ++ String c "") s
    end.
Proof. reflexivity. Qed.

Lemma split_at_sep (sep s rest : string) :
  nonempty sep = true -> nonempty s = true ->
  strip_prefix sep s = Some rest ->
  split s sep = "" :: split rest sep.
Proof.
  intros Hsep Hs E. unfold split.
  destruct s as [|c s]; [discriminate|].
  rewrite split_from_step, E. f_equal.
  apply strip_prefix_length in E.
  assert (0 < String.length sep)%nat
    by (destruct sep; [discriminate | simpl; lia]).
  apply split_from_fuel; [exact Hsep | lia | lia].
Qed.

Lemma split_other (sep s : string) (c : ascii) :
  nonempty sep = true ->
  strip_prefix sep (String c s) = None ->
  split (String c s) sep
  = match split s sep with
    | [] => [String c ""]
    | p :: ps => String c p :: ps
    end.
Proof.
  intros Hsep E. unfold split.
  rewrite split_from_step, E, split_from_cur.
  rewrite (split_from_fuel sep (String.length (String c s))
             (S (String.length s)) "" s Hsep); [reflexivity | |lia].
  simpl. lia.
Qed.

(** ** The chunker *)

Lemma chunk_text_one (text : string) (max_chars : Z) :
  len text <= max_chars -> chunk_text text max_chars = [text].
Proof.
  intros Hle. unfold chunk_text. apply Z.leb_le in Hle. now rewrite Hle.
Qed.

(** C9. A text no longer than [max_chars] is returned unchanged as the
    only chunk; the empty text gives the single chunk [""] for every
    [max_chars >= 0]. *)
Theorem chunk_text_small :
  (forall (text : string) (max_chars : Z),
      len text <= max_chars -> chunk_text text max_chars = [text]) /\
  (forall max_chars : Z, 0 <= max_chars -> chunk_text "" max_chars = [""]).
Proof.
  split; [exact chunk_text_one|].
  intros max_chars Hmax. now apply chunk_text_one.
Qed.

Lemma chunk_text_small_witness :
  chunk_text "--- Page 1 --- deductible $500" 20000
  = ["--- Page 1 --- deductible $500"]
  /\ chunk_text "" 0 = [""].
Proof.
  split.
  - apply (proj1 chunk_text_small). vm_compute. discriminate.
  - apply (proj2 chunk_text_small). lia.
Defined.

(** C3, on the code. Both words of the text have 3 characters, the
    maximum; the forced split puts a space behind each word without
    counting it, and both chunks have 4 characters. A word longer than
    the maximum gives a longer chunk still. *)
Theorem chunk_exceeds_max_chars :
  chunk_text "abc def" 3 = ["abc "; "def "] /\
  Forall (fun word => len word <= 3) (split_ws "abc def") /\
  Forall (fun chunk => 3 < len chunk) (chunk_text "abc def" 3) /\
  chunk_text "abcdefgh" 3 = ["abcdefgh "].
Proof.
  split; [reflexivity|]. split; [|split; [|reflexivity]].
  - repeat constructor; vm_compute; discriminate.
  - repeat constructor.
Qed.

(** *** What the chunks contain *)

Lemma remove_ws_word_space (word : string) :
  no_ws word = true -> remove_ws (word ++ " ") = word.
Proof.
  intros H. rewrite remove_ws_append, (remove_ws_no_ws _ H). simpl.
  apply append_nil_r.
Qed.

Lemma is_word_no_ws (w : string) : is_word w = true -> no_ws w = true.
Proof. unfold is_word. intros H. now apply andb_prop in H. Qed.

Lemma remove_ws_add_word (x word : string) :
  no_ws word = true -> remove_ws (x ++ word ++ " ") = remove_ws x ++ word.
Proof.
  intros H. now rewrite remove_ws_append, (remove_ws_word_space _ H).
Qed.

Lemma pack_words_content (max_chars : Z) (words : list string) :
  forall chunks temp chunks' temp',
    Forall (fun w => is_word w = true) words ->
    pack_words max_chars words chunks temp = (chunks', temp') ->
    remove_ws (concat chunks' ++ temp')
    = remove_ws (concat chunks ++ temp) ++ concat words.
Proof.
  induction words as [|word rest IH]; intros chunks temp chunks' temp' Hw H;
    simpl in H.
  - inversion H; subst. simpl. now rewrite append_nil_r.
  - inversion Hw as [|? ? Hword Hrest]; subst.
    apply is_word_no_ws in Hword.
    destruct (len temp + len word + 1 <=? max_chars).
    + rewrite (IH _ _ _ _ Hrest H). simpl.
      rewrite <- (append_assoc (concat chunks) temp).
      rewrite (remove_ws_add_word _ _ Hword). apply append_assoc.
    + rewrite (IH _ _ _ _ Hrest H). simpl.
      rewrite (remove_ws_add_word _ _ Hword), append_assoc.
      f_equal. f_equal.
      destruct (nonempty temp) eqn:En.
      * apply concat_append_item.
      * apply nonempty_false in En. subst. now rewrite append_nil_r.
Qed.

Lemma page_step_content (max_chars : Z) (first page : string)
    (st : list string * string) :
  let st' := page_step max_chars first st page in
  remove_ws (concat (fst st') ++ snd st')
  = remove_ws (concat (fst st) ++ snd st) ++ contribution first page.
Proof.
  destruct st as [chunks current]. unfold page_step, contribution, blank. simpl.
  destruct (negb (nonempty (strip page))); simpl; [now rewrite append_nil_r|].
  destruct (len (page_text_of first page) >? max_chars).
  - destruct (pack_words max_chars (split_ws (page_text_of first page))
                (if nonempty current then append_item chunks current else chunks) "")
      as [chunks2 temp] eqn:Ep.
    apply pack_words_content in Ep; [|apply split_ws_words].
    rewrite concat_split_ws in Ep. simpl.
    rewrite append_nil_r in *.
    assert (E1 : concat (if nonempty temp then append_item chunks2 temp else chunks2)
                 = concat chunks2 ++ temp).
    { destruct (nonempty temp) eqn:En; [apply concat_append_item|].
      apply nonempty_false in En. subst. now rewrite append_nil_r. }
    assert (E2 : concat (if nonempty current then append_item chunks current else chunks)
                 = concat chunks ++ current).
    { destruct (nonempty current) eqn:En; [apply concat_append_item|].
      apply nonempty_false in En. subst. now rewrite append_nil_r. }
    now rewrite E1, Ep, E2.
  - destruct (len current + len (page_text_of first page) <=? max_chars); simpl.
    + now rewrite <- append_assoc, remove_ws_append.
    + now rewrite concat_append_item, remove_ws_append.
Qed.

Lemma fold_page_step_content (max_chars : Z) (first : string) (pages : list string) :
  forall st,
    let st' := fold_left (page_step max_chars first) pages st in
    remove_ws (concat (fst st') ++ snd st')
    = remove_ws (concat (fst st) ++ snd st)
      ++ concat (map (contribution first) pages).
Proof.
  induction pages as [|page pages IH]; intros st; simpl.
  - now rewrite append_nil_r.
  - rewrite IH, page_step_content. now rewrite append_assoc.
Qed.

Lemma chunk_text_content (text : string) (max_chars : Z) :
  max_chars < len text ->
  remove_ws (concat (chunk_text text max_chars))
  = concat (map (contribution (hd "" (split text marker))) (split text marker)).
Proof.
  intros Hlen. unfold chunk_text.
  apply Z.leb_gt in Hlen. rewrite Hlen.
  pose proof (fold_page_step_content max_chars (hd "" (split text marker))
                (split text marker) ([], "")) as H.
  simpl in H.
  destruct (fold_left _ _ _) as [chunks current]. simpl in H.
  rewrite <- H. f_equal.
  destruct (nonempty current) eqn:En; [apply concat_append_item|].
  apply nonempty_false in En. subst. now rewrite append_nil_r.
Qed.

Lemma contribution_rest (first : string) (rest : list string) :
  existsb (fun page => String.eqb page first && negb (blank page)) rest = false ->
  concat (map (contribution first) rest)
  = remove_ws (concat (map (append marker)
                         (filter (fun page => negb (blank page)) rest))).
Proof.
  induction rest as [|page rest IH]; simpl; intros H; [reflexivity|].
  apply orb_false_elim in H. destruct H as [Hp Hrest].
  rewrite (IH Hrest). unfold contribution at 1.
  destruct (blank page) eqn:Eb; simpl; [reflexivity|].
  rewrite remove_ws_append. f_equal.
  unfold page_text_of. simpl in Hp. rewrite andb_true_r in Hp. now rewrite Hp.
Qed.

Lemma join_as_concat (sep first : string) (rest : list string) :
  join sep (first :: rest) = first ++ concat (map (append sep) rest).
Proof.
  revert first. induction rest as [|page rest IH]; intros first.
  - cbn [join map concat]. now rewrite append_nil_r.
  - rewrite join_cons by discriminate. rewrite IH.
    cbn [map concat]. now rewrite append_assoc.
Qed.

Lemma filter_all {A : Type} (f : A -> bool) (l : list A) :
  (forall x, In x l -> f x = true) -> filter f l = l.
Proof.
  induction l as [|x l IH]; intros H; cbn [filter]; [reflexivity|].
  rewrite (H x) by now left. f_equal. apply IH. intros y Hy. apply H. now right.
Qed.

Lemma remove_ws_kept_text (text : string) :
  (forall page, In page (tl (split text marker)) -> blank page = false) ->
  remove_ws (kept_text text) = remove_ws text.
Proof.
  intros Hall. rewrite <- (join_split text marker) at 2.
  unfold kept_text.
  pose proof (split_from_not_nil (S (String.length text)) marker "" text) as Hne.
  fold (split text marker) in Hne.
  destruct (split text marker) as [|first rest]; [congruence|]. clear Hne.
  cbn [tl] in Hall.
  rewrite filter_all, join_as_concat.
  - rewrite !remove_ws_append. f_equal.
    destruct (blank first) eqn:Eb; [|reflexivity].
    unfold blank in Eb. apply negb_true_iff in Eb.
    now rewrite (strip_blank _ Eb).
  - intros page Hp. now rewrite (Hall page Hp).
Qed.

(** *** The chunks, character by character *)

Lemma pack_words_exact (max_chars : Z) (words : list string) :
  forall chunks temp chunks' temp',
    pack_words max_chars words chunks temp = (chunks', temp') ->
    concat chunks' ++ temp'
    = (concat chunks ++ temp) ++ concat (map (fun w => w ++ " ") words).
Proof.
  induction words as [|word rest IH]; intros chunks temp chunks' temp' H;
    simpl in H.
  - inversion H; subst. cbn [map concat]. now rewrite append_nil_r.
  - cbn [map concat].
    destruct (len temp + len word + 1 <=? max_chars).
    + rewrite (IH _ _ _ _ H). now rewrite !append_assoc.
    + rewrite (IH _ _ _ _ H).
      assert (E : concat (if nonempty temp then append_item chunks temp
                          else chunks) = concat chunks ++ temp).
      { destruct (nonempty temp) eqn:En; [apply concat_append_item|].
        apply nonempty_false in En. subst. now rewrite append_nil_r. }
      rewrite E. now rewrite !append_assoc.
Qed.

Lemma page_step_exact (max_chars : Z) (first page : string)
    (st : list string * string) :
  let st' := page_step max_chars first st page in
  concat (fst st') ++ snd st'
  = (concat (fst st) ++ snd st)
    ++ kept_piece max_chars (page_text_of first page, page).
Proof.
  destruct st as [chunks current]. unfold page_step, kept_piece, blank.
  cbn [fst snd].
  destruct (negb (nonempty (strip page))); [now rewrite append_nil_r|].
  destruct (len (page_text_of first page) >? max_chars).
  - destruct (pack_words max_chars (split_ws (page_text_of first page))
                (if nonempty current then append_item chunks current else chunks) "")
      as [chunks2 temp] eqn:Ep.
    apply pack_words_exact in Ep. cbn [fst snd].
    rewrite append_nil_r in *.
    assert (E1 : concat (if nonempty temp then append_item chunks2 temp else chunks2)
                 = concat chunks2 ++ temp).
    { destruct (nonempty temp) eqn:En; [apply concat_append_item|].
      apply nonempty_false in En. subst. now rewrite append_nil_r. }
    assert (E2 : concat (if nonempty current then append_item chunks current else chunks)
                 = concat chunks ++ current).
    { destruct (nonempty current) eqn:En; [apply concat_append_item|].
      apply nonempty_false in En. subst. now rewrite append_nil_r. }
    rewrite E1, Ep, E2. reflexivity.
  - destruct (len current + len (page_text_of first page) <=? max_chars);
      cbn [fst snd].
    + now rewrite append_assoc.
    + now rewrite concat_append_item.
Qed.

Lemma fold_page_step_exact (max_chars : Z) (first : string) (pages : list string) :
  forall st,
    let st' := fold_left (page_step max_chars first) pages st in
    concat (fst st') ++ snd st'
    = (concat (fst st) ++ snd st)
      ++ concat (map (fun page =>
                        kept_piece max_chars (page_text_of first page, page))
                     pages).
Proof.
  induction pages as [|page pages IH]; intros st; cbn [fold_left map concat].
  - now rewrite append_nil_r.
  - rewrite IH, page_step_exact. now rewrite append_assoc.
Qed.

Lemma chunk_text_exact (text : string) (max_chars : Z) :
  max_chars < len text ->
  concat (chunk_text text max_chars)
  = concat (map (fun page =>
                   kept_piece max_chars
                     (page_text_of (hd "" (split text marker)) page, page))
                (split text marker)).
Proof.
  intros Hlen. unfold chunk_text.
  apply Z.leb_gt in Hlen. rewrite Hlen.
  pose proof (fold_page_step_exact max_chars (hd "" (split text marker))
                (split text marker) ([], "")) as H.
  cbn [fst snd concat] in H.
  destruct (fold_left _ _ _) as [chunks current]. cbn [fst snd] in H.
  cbn [append] in H. rewrite <- H.
  destruct (nonempty current) eqn:En; [apply concat_append_item|].
  apply nonempty_false in En. subst. now rewrite append_nil_r.
Qed.

Lemma kept_piece_rest (max_chars : Z) (first : string) (rest : list string) :
  existsb (fun page => String.eqb page first && negb (blank page)) rest = false ->
  map (fun page => kept_piece max_chars (page_text_of first page, page)) rest
  = map (kept_piece max_chars) (map (fun body => (marker ++ body, body)) rest).
Proof.
  induction rest as [|page rest IH]; cbn [existsb map]; intros H; [reflexivity|].
  apply orb_false_elim in H. destruct H as [Hp Hrest].
  rewrite (IH Hrest). f_equal.
  unfold kept_piece, page_text_of.
  destruct (blank page); [reflexivity|].
  cbn [negb] in Hp. rewrite andb_true_r in Hp. now rewrite Hp.
Qed.

Lemma pieces_cover (text : string) : concat (map fst (pieces text)) = text.
Proof.
  rewrite <- (join_split text marker) at 2. unfold pieces.
  pose proof (split_from_not_nil (S (String.length text)) marker "" text) as Hne.
  fold (split text marker) in Hne.
  destruct (split text marker) as [|first rest]; [congruence|].
  rewrite join_as_concat. cbn [map fst concat]. f_equal.
  rewrite map_map. cbn [fst]. reflexivity.
Qed.

Lemma chunk_text_pieces (text : string) (max_chars : Z) :
  max_chars < len text -> repeats_first text = false ->
  concat (chunk_text text max_chars)
  = concat (map (kept_piece max_chars) (pieces text)).
Proof.
  intros Hlen Hrep. rewrite (chunk_text_exact _ _ Hlen).
  unfold repeats_first in Hrep. unfold pieces.
  destruct (split text marker) as [|first rest]; [reflexivity|].
  cbn [hd map]. rewrite (kept_piece_rest _ _ _ Hrep).
  unfold page_text_of at 1. now rewrite String.eqb_refl.
Qed.

Lemma remove_ws_respaced_from (s cur : string) :
  no_ws cur = true ->
  remove_ws (concat (map (fun w => w ++ " ") (split_ws_from cur s)))
  = cur ++ remove_ws s.
Proof.
  intros Hcur.
  assert (H : forall l, Forall (fun w => is_word w = true) l ->
              remove_ws (concat (map (fun w => w ++ " ") l)) = concat l).
  { induction l as [|w l IH]; intros Hl; cbn [map concat]; [reflexivity|].
    inversion Hl as [|? ? Hw Hrest]; subst.
    rewrite remove_ws_append, (IH Hrest).
    now rewrite (remove_ws_word_space _ (is_word_no_ws _ Hw)). }
  rewrite H by now apply split_ws_from_words.
  apply concat_split_ws_from.
Qed.

(** The forced split changes whitespace only. *)
Lemma remove_ws_respaced (s : string) : remove_ws (respaced s) = remove_ws s.
Proof. unfold respaced, split_ws. now rewrite remove_ws_respaced_from. Qed.

(** C4, as stated, fails, and not through a forced split: no piece of
    the text is longer than the maximum, the page behind the second
    marker is blank, and the chunks leave it out with its marker. *)
Lemma blank_page_lost :
  let text := "--- Page 1 ---x--- Page --- Page 3 ---y" in
  chunk_text text 20 = ["--- Page 1 ---x"; "--- Page 3 ---y"] /\
  forallb (fun piece => len (fst piece) <=? 20) (pieces text) = true /\
  concat (chunk_text text 20) <> text.
Proof.
  split; [vm_compute; reflexivity|]. split; [vm_compute; reflexivity|].
  vm_compute. discriminate.
Qed.

(** C4, amended. A text that fits is returned as it is. A longer text
    is the sequence of its pieces: the text in front of the first
    marker, then every marker with the page behind it. The chunks, one
    after the other, hold something of every piece, in the order of the
    pieces: nothing of a piece whose page is blank, which is left out
    with its marker; of a piece longer than the maximum, which is split
    by force between its words, the same characters in the same order,
    whitespace apart; and every other piece as it is, character by
    character. So a text without a blank page and without a piece longer
    than the maximum is reproduced exactly. (A text where a page behind
    a marker repeats the piece in front of the first marker is left
    out.) *)
Theorem chunk_text_concat (text : string) (max_chars : Z) :
  (len text <= max_chars -> concat (chunk_text text max_chars) = text) /\
  concat (map fst (pieces text)) = text /\
  (max_chars < len text -> repeats_first text = false ->
   exists kept : list string,
     Forall2 (piece_kept max_chars) (pieces text) kept /\
     concat (chunk_text text max_chars) = concat kept) /\
  (max_chars < len text -> repeats_first text = false ->
   (forall piece, In piece (pieces text) ->
                  (fst piece = "" \/ blank (snd piece) = false) /\
                  len (fst piece) <= max_chars) ->
   concat (chunk_text text max_chars) = text).
Proof.
  split; [|split; [|split]].
  - intros Hle. rewrite (chunk_text_one _ _ Hle). cbn [concat].
    apply append_nil_r.
  - apply pieces_cover.
  - intros Hlen Hrep.
    exists (map (kept_piece max_chars) (pieces text)).
    split; [|now apply chunk_text_pieces].
    induction (pieces text) as [|[piece body] l IH]; cbn [map];
      constructor; [|exact IH].
    unfold piece_kept, kept_piece.
    destruct (blank body); [reflexivity|].
    destruct (len piece >? max_chars);
      [apply remove_ws_respaced | reflexivity].
  - intros Hlen Hrep Hall.
    rewrite (chunk_text_pieces _ _ Hlen Hrep).
    rewrite <- (pieces_cover text) at 2. f_equal.
    apply map_ext_in. intros [piece body] Hin.
    destruct (Hall _ Hin) as [Hb Hl]. cbn [fst snd] in *.
    unfold kept_piece.
    assert (E : (len piece >? max_chars) = false).
    { rewrite Z.gtb_ltb. apply Z.ltb_ge. exact Hl. }
    rewrite E. destruct Hb as [Hb|Hb]; [|now rewrite Hb].
    subst piece. now destruct (blank body).
Qed.

Lemma chunk_text_concat_witness :
  concat (chunk_text "--- Page 1 --- plan A--- Page 2 --- plan B" 25)
  = "--- Page 1 --- plan A--- Page 2 --- plan B".
Proof.
  apply (proj2 (proj2 (proj2
           (chunk_text_concat
              "--- Page 1 --- plan A--- Page 2 --- plan B" 25)))).
  - vm_compute. reflexivity.
  - vm_compute. reflexivity.
  - intros piece Hp. vm_compute in Hp.
    destruct Hp as [Hp|[Hp|[Hp|[]]]]; subst piece; split;
      solve [left; reflexivity | right; reflexivity
             | vm_compute; discriminate].
Defined.

(** ** Dictionaries *)

Lemma dict_get_set_same (d : dict) (k : string) (v : json) :
  dict_get (dict_set d k v) k = Some v.
Proof.
  induction d as [|[k' w] d IH]; simpl.
  - now rewrite String.eqb_refl.
  - destruct (String.eqb k' k) eqn:E; simpl; rewrite E; [reflexivity | exact IH].
Qed.

Lemma dict_get_set_other (d : dict) (k k' : string) (v : json) :
  k <> k' -> dict_get (dict_set d k v) k' = dict_get d k'.
Proof.
  intros Hne. induction d as [|[k0 w] d IH]; simpl.
  - apply String.eqb_neq in Hne. now rewrite Hne.
  - destruct (String.eqb k0 k) eqn:E; simpl.
    + apply String.eqb_eq in E. subst k0.
      apply String.eqb_neq in Hne. now rewrite Hne.
    + now rewrite IH.
Qed.

Lemma getitem_set_same (d : dict) (k : string) (v : json) :
  getitem (dict_set d k v) k = v.
Proof. unfold getitem. now rewrite dict_get_set_same. Qed.

Lemma getitem_set_other (d : dict) (k k' : string) (v : json) :
  k <> k' -> getitem (dict_set d k v) k' = getitem d k'.
Proof. intros H. unfold getitem. now rewrite dict_get_set_other. Qed.

Lemma keys_set_present (d : dict) (k : string) (v : json) :
  dict_mem d k = true -> map fst (dict_set d k v) = map fst d.
Proof.
  unfold dict_mem. induction d as [|[k' w] d IH]; simpl; [discriminate|].
  destruct (String.eqb k' k) eqn:E; simpl; [reflexivity|].
  intros H. now rewrite IH.
Qed.

Lemma dict_mem_keys (d : dict) (k : string) :
  dict_mem d k = existsb (fun k' => String.eqb k' k) (map fst d).
Proof.
  unfold dict_mem. induction d as [|[k' w] d IH]; simpl; [reflexivity|].
  destruct (String.eqb k' k); simpl; [reflexivity | exact IH].
Qed.

Lemma dict_get_absent (d : dict) (k : string) :
  ~ In k (map fst d) -> dict_get d k = None.
Proof.
  induction d as [|[k' w] d IH]; simpl; [reflexivity|].
  intros H. destruct (String.eqb k' k) eqn:E.
  - apply String.eqb_eq in E. tauto.
  - apply IH. tauto.
Qed.

Lemma dict_get_filter_other (d : dict) (k s : string) :
  s <> k ->
  dict_get (filter (fun kv => negb (String.eqb (fst kv) k)) d) s = dict_get d s.
Proof.
  intros Hne. induction d as [|[k' w] d IH]; simpl; [reflexivity|].
  destruct (String.eqb k' k) eqn:Ek; simpl.
  - apply String.eqb_eq in Ek. subst k'.
    rewrite IH. apply not_eq_sym, String.eqb_neq in Hne. now rewrite Hne.
  - now rewrite IH.
Qed.

Lemma dict_get_items (d : dict) (s : string) :
  dict_get (dict_items d) s = dict_get d s.
Proof.
  induction d as [|[k v] d IH]; simpl; [reflexivity|].
  destruct (String.eqb k s) eqn:E; [reflexivity|].
  rewrite dict_get_filter_other; [exact IH|].
  apply String.eqb_neq in E. congruence.
Qed.

Lemma keys_filter_subset (d : dict) (k s : string) :
  In s (map fst (filter (fun kv => negb (String.eqb (fst kv) k)) d)) ->
  In s (map fst d) /\ s <> k.
Proof.
  induction d as [|[k' w] d IH]; simpl; [tauto|].
  destruct (String.eqb k' k) eqn:Ek; simpl.
  - intros H. destruct (IH H). tauto.
  - intros [H|H].
    + subst s. apply String.eqb_neq in Ek. tauto.
    + destruct (IH H). tauto.
Qed.

Lemma NoDup_keys_filter (d : dict) (k : string) :
  NoDup (map fst d) ->
  NoDup (map fst (filter (fun kv => negb (String.eqb (fst kv) k)) d)).
Proof.
  induction d as [|[k' w] d IH]; simpl; intros H; [constructor|].
  inversion H as [|? ? Hnot Hd]; subst.
  destruct (String.eqb k' k); simpl; [now apply IH|].
  constructor; [|now apply IH].
  intros Hin. apply keys_filter_subset in Hin. tauto.
Qed.

Lemma NoDup_keys_items (d : dict) : NoDup (map fst (dict_items d)).
Proof.
  induction d as [|[k v] d IH]; simpl; [constructor|].
  constructor.
  - intros Hin. apply keys_filter_subset in Hin. tauto.
  - now apply NoDup_keys_filter.
Qed.

Lemma dict_get_fold_set (l : list (string * json)) :
  NoDup (map fst l) ->
  forall (d : dict) (s : string),
    dict_get (fold_left (fun acc kv => dict_set acc (fst kv) (snd kv)) l d) s
    = match dict_get l s with
      | Some v => Some v
      | None => dict_get d s
      end.
Proof.
  induction l as [|[k v] l IH]; intros Hnd d s; simpl; [reflexivity|].
  inversion Hnd as [|? ? Hnot Hl]; subst.
  rewrite (IH Hl).
  destruct (String.eqb k s) eqn:E.
  - apply String.eqb_eq in E. subst s.
    now rewrite (dict_get_absent _ _ Hnot), dict_get_set_same.
  - apply String.eqb_neq in E. now rewrite dict_get_set_other.
Qed.

(** [d.update(other)]: the value of [other] wins on a key of [other]. *)
Lemma dict_get_update (d other : dict) (s : string) :
  dict_get (dict_update d other) s
  = match dict_get other s with
    | Some v => Some v
    | None => dict_get d s
    end.
Proof.
  unfold dict_update.
  rewrite dict_get_fold_set by apply NoDup_keys_items.
  now rewrite dict_get_items.
Qed.

(** ** The merger *)

(** *** Which keys a step writes *)

Lemma has_keys_mem (merged : dict) (k : string) :
  has_keys merged -> In k merged_keys -> dict_mem merged k = true.
Proof.
  intros Hk Hin. rewrite dict_mem_keys, Hk.
  apply existsb_exists. exists k. split; [exact Hin | apply String.eqb_refl].
Qed.

Lemma has_keys_set (merged : dict) (k : string) (v : json) :
  has_keys merged -> In k merged_keys -> has_keys (dict_set merged k v).
Proof.
  intros Hk Hin. unfold has_keys. rewrite keys_set_present; [exact Hk|].
  now apply has_keys_mem.
Qed.

Lemma has_keys_get (merged : dict) (k : string) :
  has_keys merged -> In k merged_keys -> dict_get merged k = Some (getitem merged k).
Proof.
  intros Hk Hin. pose proof (has_keys_mem _ _ Hk Hin) as H.
  unfold dict_mem in H. unfold getitem.
  destruct (dict_get merged k); [reflexivity | discriminate].
Qed.

Lemma scalar_keys_merged (k : string) : In k scalar_keys -> In k merged_keys.
Proof. simpl. tauto. Qed.

Lemma nested_keys_merged (k : string) : In k nested_keys -> In k merged_keys.
Proof. simpl. tauto. Qed.

Lemma scalar_key_apart (k : string) :
  In k scalar_keys ->
  ~ In k nested_keys /\ k <> "key_requirements" /\ k <> "additional_info".
Proof.
  simpl. intros H.
  repeat (destruct H as [H|H]; [subst k; repeat split; simpl;
                                intuition discriminate|]).
  contradiction.
Qed.

Lemma nested_key_apart (k : string) :
  In k nested_keys ->
  ~ In k scalar_keys /\ k <> "key_requirements" /\ k <> "additional_info".
Proof.
  simpl. intros H.
  repeat (destruct H as [H|H]; [subst k; repeat split; simpl;
                                intuition discriminate|]).
  contradiction.
Qed.

Lemma NoDup_scalar_keys : NoDup scalar_keys.
Proof.
  unfold scalar_keys.
  repeat (constructor; [simpl; intuition discriminate|]). constructor.
Qed.

Lemma NoDup_nested_keys : NoDup nested_keys.
Proof.
  unfold nested_keys.
  repeat (constructor; [simpl; intuition discriminate|]). constructor.
Qed.

(** *** The scalar fields *)

Lemma merge_scalar_get_other (r m : dict) (k k' : string) :
  k <> k' -> getitem (merge_scalar r m k) k' = getitem m k'.
Proof.
  intros Hne. unfold merge_scalar.
  destruct (dict_get r k) as [v|]; [|reflexivity].
  destruct (truthy v && negb (truthy (getitem m k))); [|reflexivity].
  now apply getitem_set_other.
Qed.

Lemma merge_scalar_get_same (r m : dict) (k : string) :
  getitem (merge_scalar r m k) k
  = match dict_get r k with
    | Some v => if truthy v && negb (truthy (getitem m k)) then v else getitem m k
    | None => getitem m k
    end.
Proof.
  unfold merge_scalar.
  destruct (dict_get r k) as [v|]; [|reflexivity].
  destruct (truthy v && negb (truthy (getitem m k))); [|reflexivity].
  apply getitem_set_same.
Qed.

Lemma fold_scalar_get_other (r : dict) (keys : list string) (k : string) :
  ~ In k keys ->
  forall m, getitem (fold_left (merge_scalar r) keys m) k = getitem m k.
Proof.
  induction keys as [|k0 keys IH]; intros Hnot m; simpl; [reflexivity|].
  simpl in Hnot. rewrite IH by tauto.
  apply merge_scalar_get_other. tauto.
Qed.

Lemma fold_scalar_get_in (r : dict) (keys : list string) (k : string) :
  NoDup keys -> In k keys ->
  forall m, getitem (fold_left (merge_scalar r) keys m) k
            = getitem (merge_scalar r m k) k.
Proof.
  induction keys as [|k0 keys IH]; intros Hnd Hin m; simpl; [contradiction|].
  inversion Hnd as [|? ? Hnot Hrest]; subst.
  destruct Hin as [->|Hin].
  - now apply fold_scalar_get_other.
  - assert (Hne : k0 <> k) by (intros ->; contradiction).
    rewrite (IH Hrest Hin), !merge_scalar_get_same.
    now rewrite (merge_scalar_get_other _ _ _ _ Hne).
Qed.

Lemma fold_scalar_keys (r : dict) (keys : list string) :
  (forall k, In k keys -> In k merged_keys) ->
  forall m, has_keys m -> has_keys (fold_left (merge_scalar r) keys m).
Proof.
  induction keys as [|k0 keys IH]; intros Hsub m Hm; simpl; [exact Hm|].
  apply IH; [intros k Hk; apply Hsub; now right|].
  unfold merge_scalar.
  destruct (dict_get r k0) as [v|]; [|exact Hm].
  destruct (truthy v && negb (truthy (getitem m k0))); [|exact Hm].
  apply has_keys_set; [exact Hm | apply Hsub; now left].
Qed.

(** *** The nested fields *)

Lemma merge_nested_get_other (r m : dict) (k k' : string) :
  k <> k' -> getitem (merge_nested r m k) k' = getitem m k'.
Proof.
  intros Hne. unfold merge_nested.
  destruct (dict_get r k) as [[| | | | | |d]|]; try reflexivity.
  now apply getitem_set_other.
Qed.

Lemma merge_nested_get_same (r m : dict) (k : string) :
  getitem (merge_nested r m k) k
  = match dict_get r k with
    | Some (JDict d) => JDict (dict_update (as_dict (getitem m k)) d)
    | _ => getitem m k
    end.
Proof.
  unfold merge_nested.
  destruct (dict_get r k) as [[| | | | | |d]|]; try reflexivity.
  apply getitem_set_same.
Qed.

Lemma fold_nested_get_other (r : dict) (keys : list string) (k : string) :
  ~ In k keys ->
  forall m, getitem (fold_left (merge_nested r) keys m) k = getitem m k.
Proof.
  induction keys as [|k0 keys IH]; intros Hnot m; simpl; [reflexivity|].
  simpl in Hnot. rewrite IH by tauto.
  apply merge_nested_get_other. tauto.
Qed.

Lemma fold_nested_get_in (r : dict) (keys : list string) (k : string) :
  NoDup keys -> In k keys ->
  forall m, getitem (fold_left (merge_nested r) keys m) k
            = getitem (merge_nested r m k) k.
Proof.
  induction keys as [|k0 keys IH]; intros Hnd Hin m; simpl; [contradiction|].
  inversion Hnd as [|? ? Hnot Hrest]; subst.
  destruct Hin as [->|Hin].
  - now apply fold_nested_get_other.
  - assert (Hne : k0 <> k) by (intros ->; contradiction).
    rewrite (IH Hrest Hin), !merge_nested_get_same.
    now rewrite (merge_nested_get_other _ _ _ _ Hne).
Qed.

Lemma fold_nested_keys (r : dict) (keys : list string) :
  (forall k, In k keys -> In k merged_keys) ->
  forall m, has_keys m -> has_keys (fold_left (merge_nested r) keys m).
Proof.
  induction keys as [|k0 keys IH]; intros Hsub m Hm; simpl; [exact Hm|].
  apply IH; [intros k Hk; apply Hsub; now right|].
  unfold merge_nested.
  destruct (dict_get r k0) as [[| | | | | |d]|]; try exact Hm.
  apply has_keys_set; [exact Hm | apply Hsub; now left].
Qed.

(** *** The requirements and the additional information *)

Lemma merge_requirements_get_other (r m : dict) (k : string) :
  k <> "key_requirements" -> getitem (merge_requirements r m) k = getitem m k.
Proof.
  intros Hne. unfold merge_requirements.
  destruct (dict_get r "key_requirements") as [[| | | | |l|]|]; try reflexivity.
  apply getitem_set_other. congruence.
Qed.

Lemma merge_requirements_keys (r m : dict) :
  has_keys m -> has_keys (merge_requirements r m).
Proof.
  intros Hm. unfold merge_requirements.
  destruct (dict_get r "key_requirements") as [[| | | | |l|]|]; try exact Hm.
  apply has_keys_set; [exact Hm | simpl; tauto].
Qed.

Lemma merge_additional_get_other (m : dict) (item : string * json) (k : string) :
  k <> "additional_info" -> getitem (merge_additional m item) k = getitem m k.
Proof.
  intros Hne. destruct item as [key value]. unfold merge_additional.
  destruct (negb (dict_mem m key) && truthy value); [|reflexivity].
  destruct value; try reflexivity; apply getitem_set_other; congruence.
Qed.

Lemma merge_additional_keys (m : dict) (item : string * json) :
  has_keys m -> has_keys (merge_additional m item).
Proof.
  intros Hm. destruct item as [key value]. unfold merge_additional.
  destruct (negb (dict_mem m key) && truthy value); [|exact Hm].
  destruct value; try exact Hm; (apply has_keys_set; [exact Hm | simpl; tauto]).
Qed.

Lemma fold_additional_get_other (items : list (string * json)) (k : string) :
  k <> "additional_info" ->
  forall m, getitem (fold_left merge_additional items m) k = getitem m k.
Proof.
  intros Hne. induction items as [|item items IH]; intros m; simpl; [reflexivity|].
  rewrite IH. now apply merge_additional_get_other.
Qed.

Lemma fold_additional_keys (items : list (string * json)) :
  forall m, has_keys m -> has_keys (fold_left merge_additional items m).
Proof.
  induction items as [|item items IH]; intros m Hm; simpl; [exact Hm|].
  apply IH. now apply merge_additional_keys.
Qed.

(** *** One chunk result *)

Lemma merge_step_error (m r : dict) :
  dict_mem r "error" = true -> merge_step m r = m.
Proof. intros H. unfold merge_step. now rewrite H. Qed.

Lemma merge_step_keys (m r : dict) : has_keys m -> has_keys (merge_step m r).
Proof.
  intros Hm. unfold merge_step.
  destruct (dict_mem r "error"); [exact Hm|].
  apply fold_additional_keys, merge_requirements_keys.
  apply fold_nested_keys; [exact nested_keys_merged|].
  apply fold_scalar_keys; [exact scalar_keys_merged | exact Hm].
Qed.

Lemma merge_step_scalar (m r : dict) (k : string) :
  In k scalar_keys ->
  getitem (merge_step m r) k = scalar_update k (getitem m k) r.
Proof.
  intros Hin. destruct (scalar_key_apart k Hin) as (Hn & Hr & Ha).
  unfold merge_step, scalar_update, scalar_report.
  destruct (dict_mem r "error"); [reflexivity|].
  rewrite (fold_additional_get_other _ _ Ha).
  rewrite (merge_requirements_get_other _ _ _ Hr).
  rewrite (fold_nested_get_other _ _ _ Hn).
  rewrite (fold_scalar_get_in _ _ _ NoDup_scalar_keys Hin).
  rewrite merge_scalar_get_same.
  destruct (dict_get r k) as [v|]; [|reflexivity].
  destruct (truthy v); simpl; [|reflexivity].
  now destruct (truthy (getitem m k)).
Qed.

Lemma merge_step_nested (m r : dict) (k sub : string) :
  In k nested_keys ->
  dict_get (nested_entries (merge_step m r) k) sub
  = match nested_report k sub r with
    | Some v => Some v
    | None => dict_get (nested_entries m k) sub
    end.
Proof.
  intros Hin. destruct (nested_key_apart k Hin) as (Hs & Hr & Ha).
  unfold nested_entries, merge_step, nested_report.
  destruct (dict_mem r "error"); [reflexivity|].
  rewrite (fold_additional_get_other _ _ Ha).
  rewrite (merge_requirements_get_other _ _ _ Hr).
  rewrite (fold_nested_get_in _ _ _ NoDup_nested_keys Hin).
  rewrite merge_nested_get_same.
  rewrite (fold_scalar_get_other _ _ _ Hs).
  destruct (dict_get r k) as [[| | | | | |d]|]; try reflexivity.
  simpl. apply dict_get_update.
Qed.

(** *** All the chunk results *)

(** The loop over the chunk results can be resumed: merging [rs ++ rs']
    is going on from the record of [rs] with [rs']. *)
Lemma merge_fold_app (rs rs' : list dict) :
  merge_fold (rs ++ rs')%list = fold_left merge_step rs' (merge_fold rs).
Proof. unfold merge_fold. apply fold_left_app. Qed.

Lemma fold_merge_step_keys (rs : list dict) :
  forall m, has_keys m -> has_keys (fold_left merge_step rs m).
Proof.
  induction rs as [|r rs IH]; intros m Hm; simpl; [exact Hm|].
  apply IH. now apply merge_step_keys.
Qed.

(** The record [merged] keeps its thirteen keys. *)
Lemma merge_fold_keys (rs : list dict) : has_keys (merge_fold rs).
Proof. apply fold_merge_step_keys. reflexivity. Qed.

Lemma dedupe_get_other (m m' : dict) (k : string) :
  dedupe_requirements m = Ok m' -> k <> "key_requirements" ->
  getitem m' k = getitem m k.
Proof.
  unfold dedupe_requirements. intros H Hne.
  destruct (truthy (getitem m "key_requirements")).
  - destruct (list_set _) as [l|e]; [|discriminate].
    inversion H; subst. apply getitem_set_other. congruence.
  - now inversion H.
Qed.

Lemma dedupe_keys (m m' : dict) :
  dedupe_requirements m = Ok m' -> has_keys m -> has_keys m'.
Proof.
  unfold dedupe_requirements. intros H Hm.
  destruct (truthy (getitem m "key_requirements")).
  - destruct (list_set _) as [l|e]; [|discriminate].
    inversion H; subst. apply has_keys_set; [exact Hm | simpl; tauto].
  - now inversion H; subst.
Qed.

Lemma merge_result_keys (rs : list dict) (m : dict) :
  merge_chunk_results rs = Ok m -> has_keys m.
Proof.
  intros H. apply (dedupe_keys _ _ H), merge_fold_keys.
Qed.

Lemma fold_merge_step_scalar (k : string) (rs : list dict) :
  In k scalar_keys ->
  forall m, getitem (fold_left merge_step rs m) k
            = fold_left (scalar_update k) rs (getitem m k).
Proof.
  intros Hin. induction rs as [|r rs IH]; intros m; simpl; [reflexivity|].
  now rewrite IH, merge_step_scalar.
Qed.

Lemma scalar_report_truthy (k : string) (r : dict) (v : json) :
  scalar_report k r = Some v -> truthy v = true.
Proof.
  unfold scalar_report. destruct (dict_mem r "error"); [discriminate|].
  destruct (dict_get r k) as [w|]; [|discriminate].
  destruct (truthy w) eqn:E; [|discriminate].
  intros H. now inversion H; subst.
Qed.

Lemma fold_scalar_update_set (k : string) (rs : list dict) (acc : json) :
  truthy acc = true -> fold_left (scalar_update k) rs acc = acc.
Proof.
  intros Hacc. induction rs as [|r rs IH]; simpl; [reflexivity|].
  unfold scalar_update at 2.
  destruct (scalar_report k r); rewrite ?Hacc; exact IH.
Qed.

Lemma fold_scalar_update_first (k : string) (rs : list dict) :
  forall acc, truthy acc = false ->
    fold_left (scalar_update k) rs acc
    = match first_some (scalar_report k) rs with
      | Some v => v
      | None => acc
      end.
Proof.
  induction rs as [|r rs IH]; intros acc Hacc; simpl; [reflexivity|].
  unfold scalar_update at 2.
  destruct (scalar_report k r) as [v|] eqn:E.
  - rewrite Hacc. apply fold_scalar_update_set.
    now apply (scalar_report_truthy k r).
  - now apply IH.
Qed.

(** The scalar fields of the merged record: the first report wins. *)
Lemma merged_scalar (rs : list dict) (m : dict) (k : string) :
  In k scalar_keys -> merge_chunk_results rs = Ok m ->
  getitem m k = or_null (first_some (scalar_report k) rs).
Proof.
  intros Hin H. destruct (scalar_key_apart k Hin) as (_ & Hr & _).
  rewrite (dedupe_get_other _ _ _ H Hr).
  unfold merge_fold. rewrite (fold_merge_step_scalar k rs Hin).
  rewrite fold_scalar_update_first.
  - assert (E : getitem initial_merged k = JNull).
    { simpl in Hin.
      repeat (destruct Hin as [Hin|Hin]; [subst k; reflexivity|]).
      contradiction. }
    rewrite E. reflexivity.
  - simpl in Hin.
    repeat (destruct Hin as [Hin|Hin]; [subst k; reflexivity|]).
    contradiction.
Qed.

Lemma first_some_app (report : dict -> option json) (l1 l2 : list dict) :
  first_some report (l1 ++ l2)%list
  = match first_some report l1 with
    | Some v => Some v
    | None => first_some report l2
    end.
Proof.
  induction l1 as [|r l1 IH]; simpl; [reflexivity|].
  destruct (report r); [reflexivity | exact IH].
Qed.

Lemma first_some_truthy (k : string) (rs : list dict) (v : json) :
  first_some (scalar_report k) rs = Some v -> truthy v = true.
Proof.
  induction rs as [|r rs IH]; simpl; [discriminate|].
  destruct (scalar_report k r) as [w|] eqn:E; [|exact IH].
  intros H. inversion H; subst. now apply (scalar_report_truthy k r).
Qed.

(** C5, on the code. The first chunk reports the empty string for
    [plan_type], a value that is not null, and the second chunk reports
    ["HMO"]: the first value that is not null is [""], and the merged
    record has ["HMO"]. *)
Theorem first_non_null_does_not_win :
  let rs := [[("plan_type", JStr "")]; [("plan_type", JStr "HMO")]] in
  merge_chunk_results rs
  = Ok (dict_set initial_merged "plan_type" (JStr "HMO")) /\
  getitem (dict_set initial_merged "plan_type" (JStr "HMO")) "plan_type"
  = JStr "HMO" /\
  or_null (first_some (non_null_report "plan_type") rs) = JStr "".
Proof. repeat split; reflexivity. Qed.

(** What the code does for a scalar field: the value of the earliest
    chunk result that has no error marker and reports a truthy value
    wins, the field is null when there is none, and once a field is set
    the chunk results that follow do not change it. *)
Lemma merge_scalar_first_truthy (rs : list dict) (m : dict) (key : string) :
  In key scalar_keys ->
  merge_chunk_results rs = Ok m ->
  getitem m key = or_null (first_some (scalar_report key) rs) /\
  (forall (rs' : list dict) (m' : dict),
      merge_chunk_results (rs ++ rs')%list = Ok m' ->
      truthy (getitem m key) = true ->
      getitem m' key = getitem m key).
Proof.
  intros Hin H. split; [now apply merged_scalar|].
  intros rs' m' H' Hset.
  rewrite (merged_scalar _ _ _ Hin H'), (merged_scalar _ _ _ Hin H) in *.
  rewrite first_some_app.
  destruct (first_some (scalar_report key) rs); [reflexivity | discriminate].
Qed.

(** C7. A chunk result with an error marker adds nothing: the merge is
    the merge of the other chunk results. *)
Theorem merge_skips_error (before after : list dict) (e : dict) :
  dict_mem e "error" = true ->
  merge_chunk_results (before ++ e :: after)%list
  = merge_chunk_results (before ++ after)%list.
Proof.
  intros He. unfold merge_chunk_results, merge_fold.
  rewrite !fold_left_app. simpl. now rewrite merge_step_error.
Qed.

Lemma merge_skips_error_witness :
  merge_chunk_results
    [error_record (Exc "APIError" "rate limit") 1; [("plan_name", JStr "X")]]
  = Ok (dict_set initial_merged "plan_name" (JStr "X")).
Proof.
  exact (eq_trans
           (merge_skips_error []
              [[("plan_name", JStr "X")]]
              (error_record (Exc "APIError" "rate limit") 1) eq_refl)
           eq_refl).
Defined.

Lemma first_some_falsy (key : string) (before : list dict) :
  (forall r v, In r before -> dict_get r key = Some v -> truthy v = false) ->
  first_some (scalar_report key) before = None.
Proof.
  induction before as [|r before IH]; intros H; cbn [first_some]; [reflexivity|].
  assert (E : scalar_report key r = None).
  { unfold scalar_report. destruct (dict_mem r "error"); [reflexivity|].
    destruct (dict_get r key) as [v|] eqn:Ev; [|reflexivity].
    now rewrite (H r v (or_introl eq_refl) Ev). }
  rewrite E. apply IH. intros r' v Hr'. apply H. now right.
Qed.

(** C10. A chunk result whose value for a scalar field is falsy (the
    empty string, 0, the empty list, [False], null) counts as having no
    value for it. The field of the merged record is the one obtained
    without that chunk result, and it is never a falsy value other than
    null. And when every chunk result in front of a chunk result has a
    falsy value or none for the field, the truthy value of that chunk
    result, which has no error marker, is the field of the merged
    record. *)
Theorem merge_scalar_falsy_is_absent :
  (forall (before after : list dict) (r : dict) (key : string) (v : json)
          (m m' : dict),
      In key scalar_keys ->
      dict_get r key = Some v -> truthy v = false ->
      merge_chunk_results (before ++ r :: after)%list = Ok m ->
      merge_chunk_results (before ++ after)%list = Ok m' ->
      getitem m key = getitem m' key /\
      (getitem m key = JNull \/ truthy (getitem m key) = true)) /\
  (forall (before after : list dict) (later : dict) (key : string) (w : json)
          (m : dict),
      In key scalar_keys ->
      (forall r v, In r before -> dict_get r key = Some v -> truthy v = false) ->
      dict_mem later "error" = false ->
      dict_get later key = Some w -> truthy w = true ->
      merge_chunk_results (before ++ later :: after)%list = Ok m ->
      getitem m key = w).
Proof.
  split.
  - intros before after r key v m m' Hin Hget Hv H H'.
    rewrite (merged_scalar _ _ _ Hin H), (merged_scalar _ _ _ Hin H').
    split.
    + rewrite !first_some_app. simpl.
      assert (E : scalar_report key r = None).
      { unfold scalar_report. rewrite Hget, Hv.
        now destruct (dict_mem r "error"). }
      now rewrite E.
    + destruct (first_some (scalar_report key) (before ++ r :: after))
        as [w|] eqn:E.
      * right. now apply (first_some_truthy key _ _ E).
      * now left.
  - intros before after later key w m Hin Hbefore Herr Hget Hw H.
    rewrite (merged_scalar _ _ _ Hin H), first_some_app.
    rewrite (first_some_falsy _ _ Hbefore). cbn [first_some].
    unfold scalar_report. now rewrite Herr, Hget, Hw.
Qed.

Lemma merge_scalar_falsy_is_absent_witness :
  let rs := [[("plan_type", JStr "")]; [("plan_type", JStr "HMO")]] in
  let m := dict_set initial_merged "plan_type" (JStr "HMO") in
  merge_chunk_results rs = Ok m /\ getitem m "plan_type" = JStr "HMO".
Proof.
  split; [reflexivity|].
  apply (proj2 merge_scalar_falsy_is_absent
           [[("plan_type", JStr "")]] [] [("plan_type", JStr "HMO")]
           "plan_type" (JStr "HMO")
           (dict_set initial_merged "plan_type" (JStr "HMO"))).
  - simpl. tauto.
  - intros r v [Hr|[]] Hv. subst r. vm_compute in Hv.
    inversion Hv. reflexivity.
  - reflexivity.
  - reflexivity.
  - reflexivity.
  - reflexivity.
Defined.

(** *** The nested fields of the merged record *)

Lemma fold_merge_step_nested (k sub : string) (rs : list dict) :
  In k nested_keys ->
  forall m, dict_get (nested_entries (fold_left merge_step rs m) k) sub
            = fold_left (fun acc r => match nested_report k sub r with
                                      | Some v => Some v
                                      | None => acc
                                      end)
                rs (dict_get (nested_entries m k) sub).
Proof.
  intros Hin. induction rs as [|r rs IH]; intros m; simpl; [reflexivity|].
  now rewrite IH, merge_step_nested.
Qed.

Lemma merge_step_object (m r : dict) (k : string) :
  In k nested_keys -> is_object (getitem m k) -> is_object (getitem (merge_step m r) k).
Proof.
  intros Hin Hobj. destruct (nested_key_apart k Hin) as (Hs & Hr & Ha).
  unfold merge_step.
  destruct (dict_mem r "error"); [exact Hobj|].
  rewrite (fold_additional_get_other _ _ Ha).
  rewrite (merge_requirements_get_other _ _ _ Hr).
  rewrite (fold_nested_get_in _ _ _ NoDup_nested_keys Hin).
  rewrite merge_nested_get_same.
  rewrite (fold_scalar_get_other _ _ _ Hs).
  destruct (dict_get r k) as [[| | | | | |d]|]; try exact Hobj.
  now eexists.
Qed.

Lemma fold_merge_step_object (k : string) (rs : list dict) :
  In k nested_keys ->
  forall m, is_object (getitem m k) ->
            is_object (getitem (fold_left merge_step rs m) k).
Proof.
  intros Hin. induction rs as [|r rs IH]; intros m Hm; simpl; [exact Hm|].
  apply IH. now apply merge_step_object.
Qed.

Lemma initial_nested (k : string) :
  In k nested_keys -> getitem initial_merged k = JDict [].
Proof.
  simpl. intros Hin.
  repeat (destruct Hin as [Hin|Hin]; [subst k; reflexivity|]).
  contradiction.
Qed.

(** C6, on the code. The first chunk reports ["$500"] for the sub-key
    [deductible] and the second chunk reports null for it: the last
    value that is not null is ["$500"], and the merged record has null.
    Two chunks with different sub-keys give both sub-keys. *)
Theorem last_non_null_does_not_win :
  let rs := [[("coverage_details", JDict [("deductible", JStr "$500")])];
             [("coverage_details", JDict [("deductible", JNull)])]] in
  merge_chunk_results rs
  = Ok (dict_set initial_merged "coverage_details"
          (JDict [("deductible", JNull)])) /\
  last_some (nested_non_null_report "coverage_details" "deductible") rs
  = Some (JStr "$500") /\
  merge_chunk_results
    [[("coverage_details", JDict [("deductible", JStr "$500")])];
     [("coverage_details", JDict [("copay", JStr "$20")])]]
  = Ok (dict_set initial_merged "coverage_details"
          (JDict [("deductible", JStr "$500"); ("copay", JStr "$20")])).
Proof. repeat split; reflexivity. Qed.

(** What the code does for a nested field: it stays an object, and for
    every sub-key the value of the last chunk result that has no error
    marker and whose field is an object with that sub-key wins, null or
    not. *)
Lemma merge_nested_last_value (rs : list dict) (m : dict) (key : string) :
  In key nested_keys ->
  merge_chunk_results rs = Ok m ->
  is_object (getitem m key) /\
  (forall sub : string,
      dict_get (nested_entries m key) sub
      = last_some (nested_report key sub) rs).
Proof.
  intros Hin H. destruct (nested_key_apart key Hin) as (_ & Hr & _).
  unfold nested_entries. rewrite (dedupe_get_other _ _ _ H Hr). split.
  - apply fold_merge_step_object; [exact Hin|].
    rewrite (initial_nested _ Hin). now eexists.
  - intros sub. unfold merge_fold.
    fold (nested_entries (fold_left merge_step rs initial_merged) key).
    rewrite (fold_merge_step_nested key sub rs Hin).
    unfold nested_entries. now rewrite (initial_nested _ Hin).
Qed.

(** *** The requirements, and when the merge returns *)

Lemma set_of_ok (l : list json) :
  Forall hashable l -> forall seen, exists res, set_of seen l = Ok res.
Proof.
  induction l as [|x l IH]; intros H seen; simpl; [now eexists|].
  inversion H as [|? ? Hx Hl]; subst. unfold hashable in Hx. rewrite Hx.
  apply (IH Hl).
Qed.

Lemma set_of_hashable_in (l : list json) :
  forall seen res, set_of seen l = Ok res -> Forall hashable l.
Proof.
  induction l as [|x l IH]; intros seen res H; simpl in H; [constructor|].
  destruct (unhashable x) eqn:Hx; [discriminate|].
  constructor; [exact Hx | exact (IH _ _ H)].
Qed.

Lemma set_of_hashable_out (l : list json) :
  forall seen res, set_of seen l = Ok res ->
                   Forall hashable seen -> Forall hashable res.
Proof.
  induction l as [|x l IH]; intros seen res H Hseen; simpl in H.
  - now inversion H; subst.
  - destruct (unhashable x) eqn:Hx; [discriminate|].
    apply (IH _ _ H).
    destruct (existsb (same_member x) seen); [exact Hseen|].
    unfold append_item. apply Forall_app. split; [exact Hseen|].
    constructor; [exact Hx | constructor].
Qed.

Lemma merge_step_reqs (m r : dict) (l0 : list json) :
  getitem m "key_requirements" = JList l0 ->
  getitem (merge_step m r) "key_requirements" = JList (l0 ++ req_report r)%list.
Proof.
  intros Hm. unfold merge_step, req_report.
  destruct (dict_mem r "error"); [now rewrite app_nil_r|].
  rewrite fold_additional_get_other by discriminate.
  assert (E : getitem (fold_left (merge_nested r) nested_keys
                         (fold_left (merge_scalar r) scalar_keys m))
                "key_requirements" = JList l0).
  { rewrite fold_nested_get_other by (simpl; intuition discriminate).
    rewrite fold_scalar_get_other by (simpl; intuition discriminate).
    exact Hm. }
  unfold merge_requirements.
  destruct (dict_get r "key_requirements") as [[| | | | |l|]|];
    rewrite ?app_nil_r; try exact E.
  rewrite getitem_set_same, E. reflexivity.
Qed.

Lemma fold_merge_step_reqs (rs : list dict) :
  forall m l0,
    getitem m "key_requirements" = JList l0 ->
    getitem (fold_left merge_step rs m) "key_requirements"
    = JList (l0 ++ flat_map req_report rs)%list.
Proof.
  induction rs as [|r rs IH]; intros m l0 Hm; simpl.
  - now rewrite app_nil_r.
  - rewrite (IH _ _ (merge_step_reqs _ r _ Hm)). now rewrite <- app_assoc.
Qed.

Lemma merge_fold_reqs (rs : list dict) :
  getitem (merge_fold rs) "key_requirements" = JList (flat_map req_report rs).
Proof. apply (fold_merge_step_reqs rs initial_merged []). reflexivity. Qed.

(** The merge returns a record exactly when every requirement is
    hashable; it raises [TypeError] otherwise. *)
Lemma merge_returns (rs : list dict) :
  Forall hashable (flat_map req_report rs) ->
  exists m, merge_chunk_results rs = Ok m.
Proof.
  intros H. unfold merge_chunk_results, dedupe_requirements.
  rewrite merge_fold_reqs.
  destruct (truthy (JList (flat_map req_report rs))); [|now eexists].
  destruct (set_of_ok _ H []) as [res Hres]. simpl as_list.
  unfold list_set. rewrite Hres. now eexists.
Qed.

Lemma merge_returned (rs : list dict) (m : dict) :
  merge_chunk_results rs = Ok m ->
  Forall hashable (flat_map req_report rs) /\
  exists l, getitem m "key_requirements" = JList l /\ Forall hashable l.
Proof.
  unfold merge_chunk_results, dedupe_requirements.
  rewrite merge_fold_reqs. intros H.
  destruct (flat_map req_report rs) as [|x l] eqn:E.
  - simpl in H. inversion H; subst. split; [constructor|].
    exists []. split; [|constructor].
    rewrite merge_fold_reqs. now rewrite E.
  - simpl in H. unfold list_set in H.
    destruct (set_of [] (x :: l)) as [res|e] eqn:Hs; [|discriminate].
    inversion H; subst. split.
    + exact (set_of_hashable_in _ _ _ Hs).
    + exists res. split; [apply getitem_set_same|].
      apply (set_of_hashable_out _ _ _ Hs). constructor.
Qed.

Lemma merged_no_error (m : dict) : has_keys m -> dict_mem m "error" = false.
Proof. intros H. rewrite dict_mem_keys, H. reflexivity. Qed.

Lemma req_report_merged (m : dict) (l : list json) :
  has_keys m -> getitem m "key_requirements" = JList l -> req_report m = l.
Proof.
  intros Hk Hl. unfold req_report.
  rewrite (merged_no_error _ Hk).
  rewrite (has_keys_get _ "key_requirements" Hk) by (simpl; tauto).
  now rewrite Hl.
Qed.

Lemma scalar_report_merged (m : dict) (k : string) :
  has_keys m -> In k scalar_keys ->
  scalar_report k m
  = if truthy (getitem m k) then Some (getitem m k) else None.
Proof.
  intros Hk Hin. unfold scalar_report.
  rewrite (merged_no_error _ Hk).
  now rewrite (has_keys_get _ k Hk (scalar_keys_merged _ Hin)).
Qed.

(** A merged record given back to the merger reports its scalar fields
    as the chunk results it was merged from. *)
Lemma first_some_merged (rs rs' : list dict) (m : dict) (k : string) :
  In k scalar_keys ->
  merge_chunk_results rs = Ok m ->
  first_some (scalar_report k) (m :: rs')
  = first_some (scalar_report k) (rs ++ rs')%list.
Proof.
  intros Hin H. simpl.
  rewrite (scalar_report_merged _ _ (merge_result_keys _ _ H) Hin).
  rewrite (merged_scalar _ _ _ Hin H), first_some_app.
  destruct (first_some (scalar_report k) rs) as [v|] eqn:E; simpl.
  - now rewrite (first_some_truthy _ _ _ E).
  - reflexivity.
Qed.

(** Merging a merged record with further chunk results returns whenever
    merging all the chunk results at once does. *)
Lemma merge_again_returns (rs rs' : list dict) (m : dict) :
  merge_chunk_results rs = Ok m ->
  Forall hashable (flat_map req_report rs') ->
  exists m', merge_chunk_results (m :: rs') = Ok m'.
Proof.
  intros H Hrs'. apply merge_returns. simpl.
  destruct (merge_returned _ _ H) as (_ & l & Hl & Hhash).
  rewrite (req_report_merged _ _ (merge_result_keys _ _ H) Hl).
  apply Forall_app. now split.
Qed.

(** C8. When merging [A; B; C] in one pass returns a record, so does
    merging [A] alone, then the result with [B], then that result with
    [C], and the scalar fields of the two records are the same. *)
Theorem merge_scalars_regroup (A B C m : dict) :
  merge_chunk_results [A; B; C] = Ok m ->
  exists m1 m2 m3 : dict,
    merge_chunk_results [A] = Ok m1 /\
    merge_chunk_results [m1; B] = Ok m2 /\
    merge_chunk_results [m2; C] = Ok m3 /\
    forall key : string, In key scalar_keys -> getitem m3 key = getitem m key.
Proof.
  intros H.
  destruct (merge_returned _ _ H) as (Hall & _).
  simpl in Hall. rewrite app_nil_r in Hall.
  apply Forall_app in Hall. destruct Hall as [HA Hall].
  apply Forall_app in Hall. destruct Hall as [HB HC].
  destruct (merge_returns [A]) as [m1 H1].
  { simpl. now rewrite app_nil_r. }
  destruct (merge_again_returns [A] [B] m1 H1) as [m2 H2].
  { simpl. now rewrite app_nil_r. }
  destruct (merge_again_returns [m1; B] [C] m2 H2) as [m3 H3].
  { simpl. now rewrite app_nil_r. }
  exists m1, m2, m3. repeat split; try assumption.
  intros key Hin.
  rewrite (merged_scalar _ _ _ Hin H3), (merged_scalar _ _ _ Hin H).
  rewrite (first_some_merged [m1; B] [C] m2 key Hin H2).
  change ([m1; B] ++ [C])%list with (m1 :: [B; C]).
  now rewrite (first_some_merged [A] [B; C] m1 key Hin H1).
Qed.

Lemma merge_scalars_regroup_witness :
  let A := [("plan_name", JStr "Gold");
            ("key_requirements", JList [JStr "referral"])] in
  let B := [("plan_name", JStr "Silver"); ("plan_type", JStr "PPO")] in
  let C := [("plan_type", JStr "HMO"); ("effective_date", JStr "2024-01-01")] in
  let m := dict_set
             (dict_set
                (dict_set
                   (dict_set initial_merged "plan_name" (JStr "Gold"))
                   "plan_type" (JStr "PPO"))
                "effective_date" (JStr "2024-01-01"))
             "key_requirements" (JList [JStr "referral"]) in
  merge_chunk_results [A; B; C] = Ok m /\
  exists m3 : dict,
    forall key : string, In key scalar_keys -> getitem m3 key = getitem m key.
Proof.
  intros A B C m. split; [reflexivity|].
  destruct (merge_scalars_regroup A B C m eq_refl)
    as (m1 & m2 & m3 & _ & _ & _ & Hs).
  exists m3. exact Hs.
Defined.

(** ** The extraction client *)

(** The body of [extract_chunk_to_json] returns a value whatever the
    service does: a failure is caught and becomes the error record. *)
Lemma extract_chunk_body_returns (w : World) (text_chunk : string)
    (chunk_num total_chunks : Z) (st : Store) :
  extract_chunk_body w text_chunk chunk_num total_chunks st
  = (Ok (match service w (requests st) text_chunk with
         | Fails e => JDict (error_record e chunk_num)
         | Responds r => r
         end),
     {| requests := S (requests st); written := written st |}).
Proof.
  unfold extract_chunk_body, try_except, request.
  now destruct (service w (requests st) text_chunk).
Qed.

(** So the decorator never sees an exception: one request is made, and
    its outcome is the outcome of the call. *)
Lemma extract_chunk_single_attempt (w : World) (text_chunk : string)
    (chunk_num total_chunks : Z) (st : Store) :
  extract_chunk_to_json w text_chunk chunk_num total_chunks st
  = extract_chunk_body w text_chunk chunk_num total_chunks st.
Proof.
  unfold extract_chunk_to_json, retry. simpl.
  now rewrite extract_chunk_body_returns.
Qed.

(** C1, on the code. The service fails twice and would answer the third
    request: [retry] around the bare request gets the answer with three
    requests, but [extract_chunk_to_json] returns the error record of the
    first failure after a single request. *)
Theorem first_failure_is_final :
  retry 3 (request flaky_world "Plan X") fresh
  = (Ok (JDict [("plan_name", JStr "X")]),
     {| requests := 3; written := [] |}) /\
  extract_chunk_to_json flaky_world "Plan X" 1 1 fresh
  = (Ok (JDict [("error", JStr "rate limit exceeded"); ("chunk", JInt 1)]),
     {| requests := 1; written := [] |}).
Proof. split; reflexivity. Qed.

(** ** Documents and batches *)

(** A document that cannot be read gives the error record, without an
    exception. *)
Lemma extract_to_json_unreadable (w : World) (pdf_path : string) (st : Store) :
  pdf_pages w pdf_path = None ->
  extract_to_json w pdf_path st
  = (Ok [("error", JStr "Failed to extract text from PDF");
         ("file", JStr pdf_path)], st).
Proof.
  intros H. unfold extract_to_json, extract_text_from_pdf. now rewrite H.
Qed.

(** So [batch_process] writes that record and counts the document as
    successful. *)
Lemma process_one_unreadable (w : World) (output_dir pdf_path : string)
    (results : dict) (st : Store) :
  pdf_pages w pdf_path = None ->
  let output_path :=
    path_join output_dir (splitext_root (basename pdf_path) ++ ".json") in
  write_error w (List.length (written st)) output_path = None ->
  process_one w output_dir results pdf_path st
  = (Ok (append_file (increment results "successful")
           [("input", JStr pdf_path); ("output", JStr output_path);
            ("status", JStr "success")]),
     {| requests := requests st;
        written :=
          (output_path,
           JDict [("error", JStr "Failed to extract text from PDF");
                  ("file", JStr pdf_path)]) :: written st |}).
Proof.
  intros H output_path Hw. unfold process_one, try_except, bind.
  rewrite (extract_to_json_unreadable _ _ _ H).
  unfold write_json. fold output_path. now rewrite Hw.
Qed.

(** C2, on the code. In a batch of three documents whose second one
    cannot be read, the summary counts three successes and no failure,
    and the entry of the second document has an output path, the status
    ["success"] and no error. *)
Theorem unreadable_document_counted_successful :
  fst (batch_process unreadable_second
         ["doc1.pdf"; "doc2.pdf"; "doc3.pdf"] "extracted_json" fresh)
  = Ok [("total", JInt 3); ("successful", JInt 3); ("failed", JInt 0);
        ("files",
         JList
           [JDict [("input", JStr "doc1.pdf");
                   ("output", JStr "extracted_json/doc1.json");
                   ("status", JStr "success")];
            JDict [("input", JStr "doc2.pdf");
                   ("output", JStr "extracted_json/doc2.json");
                   ("status", JStr "success")];
            JDict [("input", JStr "doc3.pdf");
                   ("output", JStr "extracted_json/doc3.json");
                   ("status", JStr "success")]])].
Proof. vm_compute. reflexivity. Qed.

(** The batch records a failure only when an exception reaches it, as
    when the merge of a long document raises [TypeError] on a
    requirement that is not hashable. *)
Lemma process_one_failure_entry (w : World) (output_dir pdf_path : string)
    (results : dict) (st st' : Store) (e : pyexc) :
  extract_to_json w pdf_path st = (Raise e, st') ->
  process_one w output_dir results pdf_path st
  = (Ok (append_file (increment results "failed")
           [("input", JStr pdf_path); ("output", JNull);
            ("status", JStr "failed"); ("error", JStr (exc_msg e))]),
     st').
Proof.
  intros H. unfold process_one, try_except, bind. now rewrite H.
Qed.

(** ** The page test of line 82 *)

(** A page behind a marker that repeats the piece in front of the first
    marker loses its marker: the case C4 leaves out. *)
Example repeated_first_page :
  chunk_text "ab--- Pageab" 5 = ["abab"].
Proof. reflexivity. Qed.

(** A blank page is dropped with its marker. *)
Example blank_page_dropped :
  chunk_text "--- Page 1 ---x--- Page --- Page 3 ---y" 20
  = ["--- Page 1 ---x"; "--- Page 3 ---y"].
Proof. reflexivity. Qed.

(** ** More on the merger *)

(** X1. When every chunk result carries an error marker, and when there
    is no chunk result at all, the merge returns the record with all
    scalar fields null and all nested fields and lists empty. *)
Theorem merge_all_errors (rs : list dict) :
  (forall r, In r rs -> dict_mem r "error" = true) ->
  merge_chunk_results rs = Ok all_null.
Proof.
  intros H. unfold merge_chunk_results.
  assert (E : merge_fold rs = initial_merged).
  { unfold merge_fold. generalize initial_merged.
    induction rs as [|r rs IH]; intros m; simpl; [reflexivity|].
    rewrite merge_step_error by (apply H; now left).
    apply IH. intros r' Hr'. apply H. now right. }
  now rewrite E.
Qed.

Lemma merge_all_errors_witness :
  merge_chunk_results
    [error_record rate_limited 1; error_record rate_limited 2]
  = Ok all_null.
Proof.
  apply merge_all_errors.
  intros r [<-|[<-|[]]]; reflexivity.
Defined.

(** X2. The merged record has the thirteen keys of the schema, in the
    order of lines 158-172, whatever keys the chunk results carry. *)
Theorem merged_record_keys (rs : list dict) (m : dict) :
  merge_chunk_results rs = Ok m ->
  map fst m
  = ["insurance_provider"; "plan_name"; "plan_type"; "document_type";
     "effective_date"; "state_specific"; "coverage_details";
     "prior_authorization"; "timely_filing"; "appeals_process";
     "key_requirements"; "contact_information"; "additional_info"].
Proof. intros H. exact (merge_result_keys _ _ H). Qed.

Lemma merged_record_keys_witness :
  map fst (dict_set initial_merged "plan_name" (JStr "X"))
  = ["insurance_provider"; "plan_name"; "plan_type"; "document_type";
     "effective_date"; "state_specific"; "coverage_details";
     "prior_authorization"; "timely_filing"; "appeals_process";
     "key_requirements"; "contact_information"; "additional_info"].
Proof.
  exact (merged_record_keys
           [[("plan_name", JStr "X"); ("page_count", JInt 3)]]
           (dict_set initial_merged "plan_name" (JStr "X")) eq_refl).
Defined.

(** *** When the merge raises *)

Lemma set_of_raises (l : list json) :
  forall seen e, set_of seen l = Raise e -> exc_type e = "TypeError".
Proof.
  induction l as [|x l IH]; intros seen e H; simpl in H; [discriminate|].
  destruct (unhashable x) as [e0|] eqn:Hx.
  - inversion H; subst. destruct x; try discriminate; now inversion Hx.
  - exact (IH _ _ H).
Qed.

Lemma merge_raises_type (rs : list dict) (e : pyexc) :
  merge_chunk_results rs = Raise e -> exc_type e = "TypeError".
Proof.
  unfold merge_chunk_results, dedupe_requirements.
  destruct (truthy _); [|discriminate].
  unfold list_set.
  destruct (set_of [] _) as [l|e0] eqn:Hs; [discriminate|].
  intros H. inversion H; subst. exact (set_of_raises _ _ _ Hs).
Qed.

(** X3. The merge raises, and what it raises is a [TypeError], exactly
    when a chunk result without error marker lists a requirement that is
    a list or an object; otherwise it returns a record. *)
Theorem merge_raises_iff (rs : list dict) :
  (exists e, merge_chunk_results rs = Raise e /\ exc_type e = "TypeError")
  <-> Exists (fun v => unhashable v <> None) (flat_map req_report rs).
Proof.
  split.
  - intros (e & H & _).
    destruct (Forall_Exists_dec (fun v => unhashable v = None)) with
      (l := flat_map req_report rs) as [Hall|Hex].
    + intros v. destruct (unhashable v); [right; discriminate | now left].
    + destruct (merge_returns rs Hall) as [m Hm]. congruence.
    + exact Hex.
  - intros Hex.
    destruct (merge_chunk_results rs) as [m|e] eqn:H.
    + destruct (merge_returned _ _ H) as [Hall _].
      apply Exists_exists in Hex. destruct Hex as (v & Hin & Hv).
      rewrite Forall_forall in Hall. elim Hv. exact (Hall v Hin).
    + exists e. split; [reflexivity | exact (merge_raises_type _ _ H)].
Qed.

(** *** The requirements of the merged record *)

Lemma same_member_refl (v : json) : hashable v -> same_member v v = true.
Proof.
  destruct v as [|b|n|f|s|l|d]; simpl; intros H; try reflexivity;
    try discriminate.
  - apply Z.eqb_refl.
  - apply Z.eqb_refl.
  - destruct f as [s|s| |s m e]; simpl.
    + reflexivity.
    + apply Bool.eqb_reflx.
    + reflexivity.
    + apply Z.eqb_refl.
  - apply String.eqb_refl.
Qed.

Lemma distinct_snoc (l : list json) (x : json) :
  distinct_members l ->
  existsb (same_member x) l = false ->
  distinct_members (append_item l x).
Proof.
  unfold distinct_members, append_item. intros Hl Hx.
  induction Hl as [|a l Ha Hl IH]; simpl.
  - constructor; constructor.
  - simpl in Hx. apply orb_false_elim in Hx. destruct Hx as [Hxa Hxl].
    constructor; [|now apply IH].
    apply Forall_app. split; [exact Ha|]. constructor; [exact Hxa | constructor].
Qed.

Lemma set_of_spec (l : list json) :
  forall seen res,
    set_of seen l = Ok res ->
    distinct_members seen ->
    distinct_members res /\
    (forall v, In v res -> In v seen \/ In v l) /\
    (forall v, In v seen -> In v res) /\
    (forall v, In v l -> exists u, In u res /\ same_member v u = true).
Proof.
  induction l as [|x l IH]; intros seen res H Hseen; simpl in H.
  - inversion H; subst. repeat split; auto. intros v [].
  - destruct (unhashable x) eqn:Hx; [discriminate|].
    destruct (existsb (same_member x) seen) eqn:Ex.
    + destruct (IH _ _ H Hseen) as (Hd & Hsub & Hkeep & Hcov).
      repeat split; [exact Hd | | exact Hkeep |].
      * intros v Hv. destruct (Hsub v Hv); [now left | right; now right].
      * intros v [<-|Hv]; [|exact (Hcov v Hv)].
        apply existsb_exists in Ex. destruct Ex as (u & Hu & Hsame).
        exists u. split; [exact (Hkeep u Hu) | exact Hsame].
    + destruct (IH _ _ H (distinct_snoc _ _ Hseen Ex)) as (Hd & Hsub & Hkeep & Hcov).
      unfold append_item in *.
      repeat split; [exact Hd | | |].
      * intros v Hv. destruct (Hsub v Hv) as [Hin|Hin]; [|right; now right].
        apply in_app_or in Hin. destruct Hin as [Hin|[<-|[]]];
          [now left | right; now left].
      * intros v Hv. apply Hkeep, in_or_app. now left.
      * intros v [<-|Hv]; [|exact (Hcov v Hv)].
        exists x. split; [|now apply same_member_refl].
        apply Hkeep, in_or_app. right. now left.
Qed.

(** X4. The requirements of the merged record are those listed by the
    chunk results without error marker, without repetition: every member
    was listed by a chunk result, every listed requirement has its equal
    among the members, and no two members are equal. *)
Theorem merged_requirements (rs : list dict) (m : dict) :
  merge_chunk_results rs = Ok m ->
  exists l,
    getitem m "key_requirements" = JList l /\
    distinct_members l /\
    (forall v, In v l -> In v (flat_map req_report rs)) /\
    (forall v, In v (flat_map req_report rs) ->
               exists u, In u l /\ same_member v u = true).
Proof.
  unfold merge_chunk_results, dedupe_requirements.
  rewrite merge_fold_reqs. intros H.
  destruct (flat_map req_report rs) as [|x l0] eqn:E.
  - simpl in H. inversion H; subst. exists [].
    rewrite merge_fold_reqs, E.
    repeat split; [constructor | intros v [] | intros v []].
  - simpl in H. unfold list_set in H.
    destruct (set_of [] (x :: l0)) as [res|e] eqn:Hs; [|discriminate].
    inversion H; subst. exists res.
    destruct (set_of_spec _ _ _ Hs) as (Hd & Hsub & _ & Hcov); [constructor|].
    repeat split; [apply getitem_set_same | exact Hd | | exact Hcov].
    intros v Hv. destruct (Hsub v Hv) as [[]|Hin]. exact Hin.
Qed.

Lemma merged_requirements_witness :
  exists l,
    getitem (dict_set initial_merged "key_requirements"
               (JList [JStr "referral"; JInt 1]))
      "key_requirements" = JList l /\
    distinct_members l.
Proof.
  destruct (merged_requirements
              [[("key_requirements", JList [JStr "referral"; JInt 1])];
               [("key_requirements", JList [JBool true; JStr "referral"])]]
              (dict_set initial_merged "key_requirements"
                 (JList [JStr "referral"; JInt 1])) eq_refl)
    as (l & Hl & Hd & _).
  exists l. now split.
Defined.

(** *** The additional information *)

Lemma additional_step (m : dict) (item : string * json) (l0 : list json) :
  has_keys m ->
  getitem m "additional_info" = JList l0 ->
  getitem (merge_additional m item) "additional_info"
  = JList (l0 ++ additional_of_item item)%list.
Proof.
  intros Hk Hm. destruct item as [key value].
  unfold merge_additional, additional_of_item.
  rewrite dict_mem_keys, Hk.
  destruct (negb (existsb (fun k' => String.eqb k' key) merged_keys) && truthy value);
    [|now rewrite app_nil_r].
  destruct value; rewrite ?app_nil_r; try exact Hm;
    rewrite getitem_set_same, Hm; reflexivity.
Qed.

Lemma fold_additional_step (items : list (string * json)) :
  forall m l0,
    has_keys m ->
    getitem m "additional_info" = JList l0 ->
    getitem (fold_left merge_additional items m) "additional_info"
    = JList (l0 ++ flat_map additional_of_item items)%list.
Proof.
  induction items as [|item items IH]; intros m l0 Hk Hm; simpl.
  - now rewrite app_nil_r.
  - rewrite (IH _ _ (merge_additional_keys _ item Hk) (additional_step _ item _ Hk Hm)).
    now rewrite <- app_assoc.
Qed.

Lemma merge_step_additional (m r : dict) (l0 : list json) :
  has_keys m ->
  getitem m "additional_info" = JList l0 ->
  getitem (merge_step m r) "additional_info"
  = JList (l0 ++ additional_report r)%list.
Proof.
  intros Hk Hm. unfold merge_step, additional_report.
  destruct (dict_mem r "error"); [now rewrite app_nil_r|].
  apply fold_additional_step.
  - apply merge_requirements_keys.
    apply fold_nested_keys; [exact nested_keys_merged|].
    apply fold_scalar_keys; [exact scalar_keys_merged | exact Hk].
  - rewrite merge_requirements_get_other by discriminate.
    rewrite fold_nested_get_other by (simpl; intuition discriminate).
    rewrite fold_scalar_get_other by (simpl; intuition discriminate).
    exact Hm.
Qed.

Lemma fold_merge_step_additional (rs : list dict) :
  forall m l0,
    has_keys m ->
    getitem m "additional_info" = JList l0 ->
    getitem (fold_left merge_step rs m) "additional_info"
    = JList (l0 ++ flat_map additional_report rs)%list.
Proof.
  induction rs as [|r rs IH]; intros m l0 Hk Hm; simpl.
  - now rewrite app_nil_r.
  - rewrite (IH _ _ (merge_step_keys _ r Hk) (merge_step_additional _ r _ Hk Hm)).
    now rewrite <- app_assoc.
Qed.

(** X5. The list [additional_info] of the merged record holds, in the
    order of the chunk results and of their keys, what the chunk results
    without error marker carry under keys outside the schema: the
    members of a non-empty list, ["key: value"] for a non-empty string,
    and nothing for a number, a boolean, an object or null. *)
Theorem merged_additional_info (rs : list dict) (m : dict) :
  merge_chunk_results rs = Ok m ->
  getitem m "additional_info" = JList (flat_map additional_report rs).
Proof.
  intros H. rewrite (dedupe_get_other _ _ _ H) by discriminate.
  unfold merge_fold.
  now rewrite (fold_merge_step_additional rs initial_merged []).
Qed.

Lemma merged_additional_info_witness :
  getitem
    (dict_set initial_merged "additional_info"
       (JList [JStr "network: national"; JStr "dental"; JStr "vision"]))
    "additional_info"
  = JList [JStr "network: national"; JStr "dental"; JStr "vision"].
Proof.
  exact (merged_additional_info
           [[("network", JStr "national"); ("page_count", JInt 12)];
            [("riders", JList [JStr "dental"; JStr "vision"]);
             ("plan_name", JNull)]]
           (dict_set initial_merged "additional_info"
              (JList [JStr "network: national"; JStr "dental"; JStr "vision"]))
           eq_refl).
Defined.

(** ** More on the chunker *)

(** *** No empty chunk *)

Lemma Forall_append_item {A : Type} (P : A -> Prop) (l : list A) (x : A) :
  Forall P l -> P x -> Forall P (append_item l x).
Proof.
  intros Hl Hx. unfold append_item. apply Forall_app. split; [exact Hl|].
  constructor; [exact Hx | constructor].
Qed.

Lemma pack_words_nonempty (max_chars : Z) (words : list string) :
  forall chunks temp chunks' temp',
    Forall (fun c => nonempty c = true) chunks ->
    pack_words max_chars words chunks temp = (chunks', temp') ->
    Forall (fun c => nonempty c = true) chunks'.
Proof.
  induction words as [|word rest IH]; intros chunks temp chunks' temp' Hc H;
    simpl in H.
  - now inversion H; subst.
  - destruct (len temp + len word + 1 <=? max_chars).
    + exact (IH _ _ _ _ Hc H).
    + apply (IH _ _ _ _) in H; [exact H|].
      destruct (nonempty temp) eqn:En; [|exact Hc].
      now apply Forall_append_item.
Qed.

Lemma page_step_nonempty (max_chars : Z) (first page : string)
    (st : list string * string) :
  nonempty_inv st -> nonempty_inv (page_step max_chars first st page).
Proof.
  destruct st as [chunks current]. unfold nonempty_inv, page_step. simpl.
  intros Hc.
  destruct (negb (nonempty (strip page))); [exact Hc|].
  destruct (len (page_text_of first page) >? max_chars) eqn:Ebig.
  - destruct (pack_words max_chars (split_ws (page_text_of first page))
                (if nonempty current then append_item chunks current else chunks) "")
      as [chunks2 temp] eqn:Ep.
    apply pack_words_nonempty in Ep.
    + simpl. destruct (nonempty temp) eqn:En; [|exact Ep].
      now apply Forall_append_item.
    + destruct (nonempty current) eqn:En; [|exact Hc].
      now apply Forall_append_item.
  - rewrite Z.gtb_ltb in Ebig. apply Z.ltb_ge in Ebig.
    destruct (len current + len (page_text_of first page) <=? max_chars) eqn:Efit;
      simpl; [exact Hc|].
    apply Z.leb_gt in Efit. apply Forall_append_item; [exact Hc|].
    destruct current; [|reflexivity].
    change (len "") with 0 in Efit. lia.
Qed.

Lemma fold_page_step_nonempty (max_chars : Z) (first : string)
    (pages : list string) :
  forall st, nonempty_inv st ->
             nonempty_inv (fold_left (page_step max_chars first) pages st).
Proof.
  induction pages as [|page pages IH]; intros st H; simpl; [exact H|].
  apply IH. now apply page_step_nonempty.
Qed.

(** X6. No chunk of a text that is not empty is empty. *)
Theorem chunk_text_no_empty_chunk (text : string) (max_chars : Z) :
  nonempty text = true ->
  Forall (fun chunk => nonempty chunk = true) (chunk_text text max_chars).
Proof.
  intros Ht. unfold chunk_text.
  destruct (len text <=? max_chars); [now repeat constructor|].
  pose proof (fold_page_step_nonempty max_chars (hd "" (split text marker))
                (split text marker) ([], "")) as H.
  destruct (fold_left _ _ _) as [chunks current].
  unfold nonempty_inv in H. simpl in H. specialize (H (Forall_nil _)).
  destruct (nonempty current) eqn:En; [|exact H].
  now apply Forall_append_item.
Qed.

Lemma chunk_text_no_empty_chunk_witness :
  Forall (fun chunk => nonempty chunk = true)
         (chunk_text "--- Page 1 --- plan A--- Page 2 --- plan B" 25).
Proof. apply chunk_text_no_empty_chunk. reflexivity. Defined.

(** *** No chunk at all *)

Lemma append_empty (a b : string) : a ++ b = "" -> a = "" /\ b = "".
Proof. destruct a; simpl; [auto | discriminate]. Qed.

Lemma remove_ws_empty_lstrip (s : string) : remove_ws s = "" -> lstrip s = "".
Proof.
  induction s as [|c s IH]; simpl; [reflexivity|].
  destruct (isspace c); [exact IH | discriminate].
Qed.

Lemma blank_iff (s : string) : blank s = true <-> remove_ws s = "".
Proof.
  unfold blank. split.
  - intros H. apply negb_true_iff in H. now apply strip_blank.
  - intros H. unfold strip. now rewrite (remove_ws_empty_lstrip _ H).
Qed.

Lemma fold_page_step_blank (max_chars : Z) (first : string) (pages : list string) :
  forallb blank pages = true ->
  forall st, fold_left (page_step max_chars first) pages st = st.
Proof.
  induction pages as [|page pages IH]; simpl; intros H st; [reflexivity|].
  apply andb_prop in H. destruct H as [Hp Hrest].
  rewrite <- (IH Hrest st) at 2. f_equal.
  destruct st as [chunks current]. unfold page_step.
  unfold blank in Hp. now rewrite Hp.
Qed.

Lemma contribution_empty (first page : string) :
  contribution first page = "" -> blank page = true.
Proof.
  unfold contribution. destruct (blank page) eqn:Eb; [reflexivity|].
  intros H. rewrite <- Eb. apply blank_iff.
  unfold page_text_of in H.
  destruct (negb (String.eqb page first)); [|exact H].
  rewrite remove_ws_append in H. now apply append_empty in H.
Qed.

Lemma concat_map_empty {A : Type} (f : A -> string) (l : list A) :
  concat (map f l) = "" -> forall x, In x l -> f x = "".
Proof.
  induction l as [|y l IH]; simpl; intros H x Hx; [contradiction|].
  apply append_empty in H. destruct H as [Hy Hl].
  destruct Hx as [<-|Hx]; [exact Hy | now apply IH].
Qed.

(** X7. The chunker returns no chunk at all exactly when the text is
    longer than [max_chars] and every piece of it between the page
    markers is blank. *)
Theorem chunk_text_nil_iff (text : string) (max_chars : Z) :
  chunk_text text max_chars = []
  <-> max_chars < len text /\ forallb blank (split text marker) = true.
Proof.
  split.
  - intros H.
    assert (Hlen : max_chars < len text).
    { destruct (Z.lt_ge_cases max_chars (len text)) as [Hlt|Hge]; [exact Hlt|].
      rewrite (chunk_text_one _ _ Hge) in H. discriminate. }
    split; [exact Hlen|].
    pose proof (chunk_text_content text max_chars Hlen) as Hc.
    rewrite H in Hc. simpl in Hc. symmetry in Hc.
    apply forallb_forall. intros page Hp.
    apply (contribution_empty (hd "" (split text marker))).
    exact (concat_map_empty _ _ Hc page Hp).
  - intros [Hlen Hall]. unfold chunk_text.
    apply Z.leb_gt in Hlen. rewrite Hlen.
    now rewrite (fold_page_step_blank _ _ _ Hall).
Qed.

(** *** Every chunk fits when every word does *)

Lemma longest_run_from_mono (s : string) :
  forall n m, (n <= m)%nat -> (longest_run_from n s <= longest_run_from m s)%nat.
Proof.
  induction s as [|c s IH]; intros n m H; simpl; [exact H|].
  destruct (isspace c); [lia | apply IH; lia].
Qed.

Lemma longest_run_from_ge (s : string) :
  forall n, (n <= longest_run_from n s)%nat.
Proof.
  induction s as [|c s IH]; intros n; simpl; [lia|].
  destruct (isspace c); [lia|]. specialize (IH (S n)). lia.
Qed.

Lemma longest_run_suffix (a b : string) :
  forall n, (longest_run b <= longest_run_from n (a ++ b))%nat.
Proof.
  unfold longest_run. induction a as [|c a IH]; intros n; simpl.
  - apply longest_run_from_mono. lia.
  - destruct (isspace c); [specialize (IH 0%nat); lia | apply IH].
Qed.

Lemma longest_run_prefix (a b : string) :
  forall n, (longest_run_from n a <= longest_run_from n (a ++ b))%nat.
Proof.
  induction a as [|c a IH]; intros n; simpl.
  - apply longest_run_from_ge.
  - destruct (isspace c); [specialize (IH 0%nat); lia | apply IH].
Qed.

(** A run of a part of the text is a run of the text, or a part of one. *)
Lemma longest_run_part (a b c : string) :
  (longest_run b <= longest_run (a ++ b ++ c))%nat.
Proof.
  etransitivity; [apply (longest_run_prefix b c) | apply longest_run_suffix].
Qed.

Lemma split_ws_from_length (s cur : string) :
  Forall (fun w => (String.length w <= longest_run_from (String.length cur) s)%nat)
         (split_ws_from cur s).
Proof.
  revert cur. induction s as [|c s IH]; intros cur; simpl.
  - destruct (nonempty cur); constructor; [lia | constructor].
  - destruct (isspace c).
    + assert (H : Forall (fun w => (String.length w
                   <= Nat.max (String.length cur) (longest_run_from 0 s))%nat)
                  (split_ws_from "" s)).
      { eapply Forall_impl; [|apply (IH "")]. simpl. intros w Hw. lia. }
      destruct (nonempty cur); [constructor; [lia | exact H] | exact H].
    + specialize (IH (cur ++ String c "")).
      rewrite length_append in IH. simpl in IH.
      now rewrite Nat.add_1_r in IH.
Qed.

Lemma split_ws_length (s : string) :
  Forall (fun w => (String.length w <= longest_run s)%nat) (split_ws s).
Proof. apply (split_ws_from_length s ""). Qed.

Lemma pack_words_bounded (max_chars : Z) (words : list string) :
  forall chunks temp chunks' temp',
    Forall (fun w => len w + 1 <= max_chars) words ->
    Forall (fun c => len c <= max_chars) chunks ->
    temp = "" \/ len temp <= max_chars ->
    pack_words max_chars words chunks temp = (chunks', temp') ->
    Forall (fun c => len c <= max_chars) chunks'
    /\ (temp' = "" \/ len temp' <= max_chars).
Proof.
  induction words as [|word rest IH]; intros chunks temp chunks' temp' Hw Hc Ht H;
    simpl in H.
  - inversion H; subst. now split.
  - inversion Hw as [|? ? Hword Hrest]; subst.
    destruct (len temp + len word + 1 <=? max_chars) eqn:E.
    + apply (IH _ _ _ _ Hrest Hc) in H; [exact H|].
      right. apply Z.leb_le in E.
      rewrite !len_append. change (len " ") with 1. lia.
    + apply (IH _ _ _ _ Hrest) in H; [exact H| |].
      * destruct (nonempty temp) eqn:En; [|exact Hc].
        apply Forall_append_item; [exact Hc|].
        destruct Ht as [->|Ht]; [discriminate | exact Ht].
      * right. rewrite len_append. change (len " ") with 1. exact Hword.
Qed.

Lemma page_step_bounded (max_chars : Z) (first page : string)
    (st : list string * string) :
  Z.of_nat (longest_run (page_text_of first page)) < max_chars ->
  bounded_inv max_chars st ->
  bounded_inv max_chars (page_step max_chars first st page).
Proof.
  intros Hrun. destruct st as [chunks current]. intros [Hc Hcur].
  simpl in Hc, Hcur. unfold page_step.
  destruct (negb (nonempty (strip page))); [now split|].
  destruct (len (page_text_of first page) >? max_chars) eqn:Ebig.
  - destruct (pack_words max_chars (split_ws (page_text_of first page))
                (if nonempty current then append_item chunks current else chunks) "")
      as [chunks2 temp] eqn:Ep.
    apply pack_words_bounded in Ep.
    + destruct Ep as [H2 Ht]. split; simpl; [|now left].
      destruct (nonempty temp) eqn:En; [|exact H2].
      apply Forall_append_item; [exact H2|].
      destruct Ht as [->|Ht]; [discriminate | exact Ht].
    + eapply Forall_impl; [|apply split_ws_length].
      simpl. intros w Hw. unfold len. lia.
    + destruct (nonempty current) eqn:En; [|exact Hc].
      apply Forall_append_item; [exact Hc|].
      destruct Hcur as [->|Hcur]; [discriminate | exact Hcur].
    + now left.
  - rewrite Z.gtb_ltb in Ebig. apply Z.ltb_ge in Ebig.
    destruct (len current + len (page_text_of first page) <=? max_chars) eqn:Efit.
    + apply Z.leb_le in Efit. split; simpl; [exact Hc|].
      right. rewrite len_append. exact Efit.
    + apply Z.leb_gt in Efit. split; simpl; [|now right].
      apply Forall_append_item; [exact Hc|].
      destruct Hcur as [->|Hcur]; [|exact Hcur].
      change (len "") with 0 in Efit. lia.
Qed.

Lemma fold_page_step_bounded (max_chars : Z) (first : string)
    (pages : list string) :
  (forall page, In page pages ->
                Z.of_nat (longest_run (page_text_of first page)) < max_chars) ->
  forall st, bounded_inv max_chars st ->
             bounded_inv max_chars (fold_left (page_step max_chars first) pages st).
Proof.
  induction pages as [|page pages IH]; intros Hrun st H; simpl; [exact H|].
  apply IH; [intros p Hp; apply Hrun; now right|].
  apply page_step_bounded; [apply Hrun; now left | exact H].
Qed.

Lemma concat_map_part (sep p : string) (l : list string) :
  In p l -> exists a c, concat (map (append sep) l) = a ++ (sep ++ p) ++ c.
Proof.
  induction l as [|q l IH]; intros Hin; [contradiction|].
  destruct Hin as [->|Hin]; cbn [map concat].
  - exists "", (concat (map (append sep) l)). reflexivity.
  - destruct (IH Hin) as (a & c & E). rewrite E.
    exists ((sep ++ q) ++ a), c. now rewrite !append_assoc.
Qed.

(** The text a page gives is a part of the text. *)
Lemma page_text_part (text page : string) :
  In page (split text marker) ->
  exists a c, text = a ++ page_text_of (hd "" (split text marker)) page ++ c.
Proof.
  intros Hin. pose proof (join_split text marker) as Hj.
  destruct (split text marker) as [|first rest]; [contradiction|].
  rewrite join_as_concat in Hj. cbn [hd]. unfold page_text_of.
  destruct (String.eqb page first) eqn:E; cbn [negb].
  - apply String.eqb_eq in E. subst page.
    exists "", (concat (map (append marker) rest)). now rewrite Hj.
  - destruct Hin as [<-|Hin]; [now rewrite String.eqb_refl in E|].
    destruct (concat_map_part marker page rest Hin) as (a & c & Ec).
    exists (first ++ a), c. rewrite <- Hj, Ec. now rewrite !append_assoc.
Qed.

(** X8. When every run of characters without whitespace in the text is
    shorter than [max_chars], no chunk has more than [max_chars]
    characters. *)
Theorem chunk_text_bounded (text : string) (max_chars : Z) :
  Z.of_nat (longest_run text) < max_chars ->
  Forall (fun chunk => len chunk <= max_chars) (chunk_text text max_chars).
Proof.
  intros Hrun. unfold chunk_text.
  destruct (len text <=? max_chars) eqn:E.
  - apply Z.leb_le in E. now repeat constructor.
  - pose proof (fold_page_step_bounded max_chars (hd "" (split text marker))
                  (split text marker)) as H.
    assert (Hpages : forall page, In page (split text marker) ->
              Z.of_nat (longest_run
                          (page_text_of (hd "" (split text marker)) page))
              < max_chars).
    { intros page Hp. destruct (page_text_part text page Hp) as (a & c & Ht).
      pose proof (longest_run_part a
                    (page_text_of (hd "" (split text marker)) page) c) as Hle.
      rewrite <- Ht in Hle. lia. }
    specialize (H Hpages ([], "")).
    destruct (fold_left _ _ _) as [chunks current].
    destruct H as [Hc Hcur]; [split; [constructor | now left]|].
    simpl in Hc, Hcur.
    destruct (nonempty current) eqn:En; [|exact Hc].
    apply Forall_append_item; [exact Hc|].
    destruct Hcur as [->|Hcur]; [discriminate | exact Hcur].
Qed.

Lemma chunk_text_bounded_witness :
  Forall (fun chunk => len chunk <= 12)
         (chunk_text "--- Page 1 --- plan A and plan B" 12).
Proof. apply chunk_text_bounded. vm_compute. reflexivity. Defined.

(** ** More on the text extractor *)

Lemma text_content_entries (pages : list string) :
  forall n entry,
    In entry (text_content n pages) <->
    exists i text,
      nth_error pages i = Some text /\ nonempty text = true /\
      entry = page_entry (n + i) text.
Proof.
  induction pages as [|text pages IH]; intros n entry; simpl.
  - split; [contradiction|]. intros (i & t & H & _). now destruct i.
  - destruct (nonempty text) eqn:En; simpl.
    + split.
      * intros [<-|Hin].
        -- exists 0%nat, text. rewrite Nat.add_0_r. now repeat split.
        -- apply IH in Hin. destruct Hin as (i & t & Hi & Ht & He).
           exists (S i), t. rewrite Nat.add_succ_r. now repeat split.
      * intros (i & t & Hi & Ht & He). destruct i as [|i]; simpl in Hi.
        -- inversion Hi; subst. left. now rewrite Nat.add_0_r.
        -- right. apply IH. exists i, t.
           rewrite Nat.add_succ_r in He. now repeat split.
    + split.
      * intros Hin. apply IH in Hin. destruct Hin as (i & t & Hi & Ht & He).
        exists (S i), t. rewrite Nat.add_succ_r. now repeat split.
      * intros (i & t & Hi & Ht & He). destruct i as [|i]; simpl in Hi.
        -- inversion Hi; subst. congruence.
        -- apply IH. exists i, t.
           rewrite Nat.add_succ_r in He. now repeat split.
Qed.

Lemma text_content_as_map (pages : list string) :
  forall n,
    text_content n pages
    = map (fun it => page_entry (fst it) (snd it))
          (filter (fun it => nonempty (snd it))
                  (combine (seq n (List.length pages)) pages)).
Proof.
  induction pages as [|text pages IH]; intros n; [reflexivity|].
  cbn [text_content List.length seq combine filter snd].
  destruct (nonempty text); cbn [map fst snd]; now rewrite IH.
Qed.

Lemma in_combine_seq (pages : list string) :
  forall a n text,
    In (n, text) (combine (seq a (List.length pages)) pages)
    <-> (a <= n)%nat /\ nth_error pages (n - a) = Some text.
Proof.
  induction pages as [|p pages IH]; intros a n text;
    cbn [List.length seq combine In].
  - split; [contradiction|]. intros [_ H]. now destruct (n - a)%nat.
  - rewrite IH. split.
    + intros [H|[Hle H]].
      * inversion H; subst. rewrite Nat.sub_diag. split; [lia | reflexivity].
      * split; [lia|]. replace (n - a)%nat with (S (n - S a)) by lia.
        exact H.
    + intros [Hle H]. destruct (Nat.eq_dec a n) as [->|Hne].
      * left. rewrite Nat.sub_diag in H. cbn in H. now inversion H.
      * right. split; [lia|].
        replace (n - a)%nat with (S (n - S a)) in H by lia. exact H.
Qed.

(** X9. For a document that can be read, [extract_text_from_pdf]
    returns the pages that have text, in the order of the document,
    joined by an empty line, each behind the marker that carries its
    own position in the document, counted from 1: the stream has an
    entry for page [n] exactly when page [n] has text, and a page
    without text leaves a gap in the numbers. *)
Theorem extract_text_stream (w : World) (pdf_path : string)
    (pages : list string) :
  pdf_pages w pdf_path = Some pages ->
  extract_text_from_pdf w pdf_path
  = join (newline ++ newline)
         (map (fun it => page_entry (fst it) (snd it))
              (pages_with_text pages)) /\
  (forall (n : nat) (text : string),
      In (n, text) (pages_with_text pages)
      <-> (1 <= n)%nat /\ nth_error pages (n - 1) = Some text
          /\ nonempty text = true).
Proof.
  intros H. split.
  - unfold extract_text_from_pdf. rewrite H.
    now rewrite text_content_as_map.
  - intros n text. unfold pages_with_text.
    rewrite filter_In, in_combine_seq. cbn [snd]. tauto.
Qed.

Lemma extract_text_stream_witness :
  extract_text_from_pdf unreadable_second "doc1.pdf"
  = page_entry 1 "Plan X".
Proof.
  exact (proj1 (extract_text_stream unreadable_second "doc1.pdf"
                  ["Plan X"] eq_refl)).
Defined.

Lemma text_content_nil_iff (pages : list string) :
  forall n, text_content n pages = []
            <-> forallb (fun text => negb (nonempty text)) pages = true.
Proof.
  induction pages as [|text pages IH]; intros n; simpl; [tauto|].
  destruct (nonempty text); simpl; [|apply IH].
  split; discriminate.
Qed.

Lemma text_content_marked (pages : list string) :
  forall n, Forall (fun entry => exists rest, entry = marker ++ rest)
                   (text_content n pages).
Proof.
  induction pages as [|text pages IH]; intros n; simpl; [constructor|].
  destruct (nonempty text); [|apply IH].
  constructor; [|apply IH]. eexists. reflexivity.
Qed.

Lemma join_marked (sep : string) (l : list string) :
  l <> [] ->
  Forall (fun entry => exists rest, entry = marker ++ rest) l ->
  exists rest, join sep l = marker ++ rest.
Proof.
  intros Hne Hl. destruct l as [|p ps]; [congruence|].
  inversion Hl as [|? ? [rest Hp] _]; subst.
  exists (rest ++ concat (map (append sep) ps)).
  rewrite join_as_concat. apply append_assoc.
Qed.

(** X10. The text extractor returns the empty string exactly when the
    document cannot be read or none of its pages has text. *)
Theorem extract_text_empty_iff (w : World) (pdf_path : string) :
  extract_text_from_pdf w pdf_path = ""
  <-> match pdf_pages w pdf_path with
      | None => True
      | Some pages => forallb (fun text => negb (nonempty text)) pages = true
      end.
Proof.
  unfold extract_text_from_pdf.
  destruct (pdf_pages w pdf_path) as [pages|]; [|tauto].
  rewrite <- (text_content_nil_iff pages 1). split.
  - intros H. destruct (text_content 1 pages) as [|p ps] eqn:E; [reflexivity|].
    destruct (join_marked (newline ++ newline) (p :: ps)) as [rest Hr];
      [discriminate | rewrite <- E; apply text_content_marked|].
    rewrite Hr in H. discriminate.
  - intros ->. reflexivity.
Qed.

(** *** The chunks of an extracted text *)

Lemma strip_prefix_append (sep rest : string) :
  strip_prefix sep (sep ++ rest) = Some rest.
Proof.
  induction sep as [|a sep IH]; simpl; [reflexivity|].
  now rewrite Ascii.eqb_refl.
Qed.

Lemma no_repeat_of_empty (pages : list string) :
  existsb (fun page => String.eqb page "" && negb (blank page)) pages = false.
Proof.
  induction pages as [|page pages IH]; simpl; [reflexivity|].
  rewrite IH, orb_false_r.
  destruct (String.eqb page "") eqn:E; [|reflexivity].
  apply String.eqb_eq in E. now subst.
Qed.

Lemma repeats_first_marked (rest : string) :
  repeats_first (marker ++ rest) = false.
Proof.
  unfold repeats_first.
  rewrite (split_at_sep marker (marker ++ rest) rest);
    [apply no_repeat_of_empty | reflexivity | reflexivity
     | apply strip_prefix_append].
Qed.

Lemma repeats_first_extracted (w : World) (pdf_path : string) :
  repeats_first (extract_text_from_pdf w pdf_path) = false.
Proof.
  unfold extract_text_from_pdf.
  destruct (pdf_pages w pdf_path) as [pages|]; [|reflexivity].
  destruct (text_content 1 pages) as [|p ps] eqn:E; [reflexivity|].
  destruct (join_marked (newline ++ newline) (p :: ps)) as [rest Hr];
    [discriminate | rewrite <- E; apply text_content_marked|].
  rewrite Hr. apply repeats_first_marked.
Qed.

Lemma chunk_text_kept (text : string) (max_chars : Z) :
  max_chars < len text -> repeats_first text = false ->
  remove_ws (concat (chunk_text text max_chars)) = remove_ws (kept_text text).
Proof.
  intros Hlen Hrep. rewrite (chunk_text_content _ _ Hlen).
  unfold repeats_first in Hrep. unfold kept_text.
  destruct (split text marker) as [|first rest]; [reflexivity|].
  cbn [hd map concat].
  rewrite (contribution_rest _ _ Hrep), remove_ws_append. f_equal.
  unfold contribution, page_text_of. rewrite String.eqb_refl. cbn [negb].
  now destruct (blank first).
Qed.

(** X11. On a text that comes from the text extractor the chunker never
    drops the marker of a page that is not blank: the chunks of a long
    extracted text hold, whitespace apart, exactly its pages that are
    not blank, each behind its marker. *)
Theorem chunk_extracted_text (w : World) (pdf_path : string) (max_chars : Z) :
  let text := extract_text_from_pdf w pdf_path in
  max_chars < len text ->
  remove_ws (concat (chunk_text text max_chars)) = remove_ws (kept_text text).
Proof.
  intros text Hlen. apply chunk_text_kept; [exact Hlen|].
  apply repeats_first_extracted.
Qed.

Lemma chunk_extracted_text_witness :
  let text := extract_text_from_pdf flaky_world "doc.pdf" in
  remove_ws (concat (chunk_text text 10)) = remove_ws (kept_text text).
Proof.
  apply (chunk_extracted_text flaky_world "doc.pdf" 10).
  vm_compute. reflexivity.
Defined.

(** ** More on the extraction client *)

(** X12. A call of [extract_chunk_to_json] makes exactly one request and
    never raises: it returns the answer of the service as it is, or the
    record with the error message and the chunk number when the request
    fails. *)
Theorem extract_chunk_one_request (w : World) (text_chunk : string)
    (chunk_num total_chunks : Z) (st : Store) :
  exists r,
    extract_chunk_to_json w text_chunk chunk_num total_chunks st
    = (Ok r, {| requests := S (requests st); written := written st |}) /\
    (forall e, service w (requests st) text_chunk = Fails e ->
               r = JDict [("error", JStr (exc_msg e));
                          ("chunk", JInt chunk_num)]) /\
    (forall answer, service w (requests st) text_chunk = Responds answer ->
                    r = answer).
Proof.
  rewrite extract_chunk_single_attempt, extract_chunk_body_returns.
  eexists. split; [reflexivity|].
  split; intros x Hx; now rewrite Hx.
Qed.

(** ** More on the merger: chunk results that are not objects *)

(** On objects the loop on JSON values is the merger on its declared
    argument. *)
Lemma merge_loop_objects (rs : list dict) :
  forall m, merge_loop m (map JDict rs) = Ok (fold_left merge_step rs m).
Proof.
  induction rs as [|r rs IH]; intros m; cbn [map merge_loop fold_left];
    [reflexivity|].
  cbn [merge_step_json]. apply IH.
Qed.

Lemma merge_json_objects (rs : list dict) :
  merge_chunk_results_json (map JDict rs) = merge_chunk_results rs.
Proof.
  unfold merge_chunk_results_json, merge_chunk_results, merge_fold.
  now rewrite merge_loop_objects.
Qed.

Lemma dedupe_raises_type (m : dict) (e : pyexc) :
  dedupe_requirements m = Raise e -> exc_type e = "TypeError".
Proof.
  unfold dedupe_requirements.
  destruct (truthy _); [|discriminate].
  unfold list_set.
  destruct (set_of [] _) as [l|e0] eqn:Hs; [discriminate|].
  intros H. inversion H; subst. exact (set_of_raises _ _ _ Hs).
Qed.

Lemma merge_step_json_raises (m : dict) (c : json) (e : pyexc) :
  merge_step_json m c = Raise e ->
  exc_type e = "TypeError" \/ exc_type e = "AttributeError".
Proof.
  destruct c; cbn [merge_step_json py_in type_name]; intros H;
    repeat match type of H with
           | context [if ?b then _ else _] => destruct b
           end;
    inversion H; subst; cbn [exc_type]; auto.
Qed.

Lemma merge_loop_raises (rs : list json) :
  forall m e, merge_loop m rs = Raise e ->
              exc_type e = "TypeError" \/ exc_type e = "AttributeError".
Proof.
  induction rs as [|c rs IH]; intros m e H; cbn [merge_loop] in H;
    [discriminate|].
  destruct (merge_step_json m c) as [m'|e'] eqn:E.
  - exact (IH _ _ H).
  - inversion H; subst. exact (merge_step_json_raises _ _ _ E).
Qed.

Lemma merge_json_raises (rs : list json) (e : pyexc) :
  merge_chunk_results_json rs = Raise e ->
  exc_type e = "TypeError" \/ exc_type e = "AttributeError".
Proof.
  unfold merge_chunk_results_json.
  destruct (merge_loop initial_merged rs) as [m|e'] eqn:E.
  - intros H. left. exact (dedupe_raises_type _ _ H).
  - intros H. inversion H; subst. exact (merge_loop_raises _ _ _ E).
Qed.

Lemma merge_loop_all_errors (rs : list json) :
  (forall c, In c rs -> exists d, c = JDict d /\ dict_mem d "error" = true) ->
  forall m, merge_loop m rs = Ok m.
Proof.
  induction rs as [|c rs IH]; intros H m; cbn [merge_loop]; [reflexivity|].
  destruct (H c (or_introl eq_refl)) as (d & -> & Hd).
  cbn [merge_step_json]. rewrite (merge_step_error _ _ Hd).
  apply IH. intros c' Hc'. apply H. now right.
Qed.

(** ** More on the documents *)

Lemma extract_chunks_returns (w : World) (chunks : list string) :
  forall i total st,
    exists results,
      extract_chunks w i total chunks st
      = (Ok results,
         {| requests := requests st + List.length chunks;
            written := written st |}) /\
      List.length results = List.length chunks.
Proof.
  induction chunks as [|chunk rest IH]; intros i total st; simpl.
  - exists []. split; [|reflexivity]. unfold ret.
    rewrite Nat.add_0_r. now destruct st.
  - unfold bind at 1.
    rewrite extract_chunk_single_attempt, extract_chunk_body_returns.
    destruct (IH (i + 1) total
                {| requests := S (requests st); written := written st |})
      as (results & Hr & Hl).
    unfold bind at 1. rewrite Hr. unfold ret. cbn [requests written].
    eexists. split.
    + rewrite <- plus_n_Sm. reflexivity.
    + simpl. now rewrite Hl.
Qed.

Lemma extract_chunks_all_fail (w : World) (chunks : list string) :
  (forall k chunk, exists e, service w k chunk = Fails e) ->
  forall i total st results st',
    extract_chunks w i total chunks st = (Ok results, st') ->
    forall c, In c results ->
              exists d, c = JDict d /\ dict_mem d "error" = true.
Proof.
  intros Hdown.
  induction chunks as [|chunk rest IH]; intros i total st results st' H c Hc;
    simpl in H.
  - inversion H; subst. contradiction.
  - unfold bind at 1 in H.
    rewrite extract_chunk_single_attempt, extract_chunk_body_returns in H.
    destruct (Hdown (requests st) chunk) as [e He]. rewrite He in H.
    unfold bind at 1 in H.
    destruct (extract_chunks w (i + 1) total rest _) as [[results'|e'] st''] eqn:E;
      [|discriminate].
    inversion H; subst. destruct Hc as [<-|Hc].
    + eexists. split; reflexivity.
    + exact (IH _ _ _ _ _ E c Hc).
Qed.

(** The state after [extract_to_json]: one request for a short text, one
    for every chunk of a long one, none without text; no file written. *)
Lemma extract_to_json_state (w : World) (pdf_path : string) (st : Store) :
  let text := extract_text_from_pdf w pdf_path in
  snd (extract_to_json w pdf_path st)
  = {| requests :=
         requests st
         + (if nonempty text
            then if len text <=? max_chars_per_chunk then 1
                 else List.length (chunk_text text max_chars_per_chunk)
            else 0);
       written := written st |}.
Proof.
  intros text. unfold extract_to_json. fold text.
  destruct (nonempty text); cbn [negb].
  - destruct (len text <=? max_chars_per_chunk).
    + unfold bind.
      rewrite extract_chunk_single_attempt, extract_chunk_body_returns.
      unfold lift. destruct (set_metadata _ _); cbn [snd requests written];
        f_equal; lia.
    + unfold bind at 1.
      destruct (extract_chunks_returns w (chunk_text text max_chars_per_chunk) 1
                  (Z.of_nat (List.length (chunk_text text max_chars_per_chunk))) st)
        as (results & Hr & _).
      rewrite Hr. unfold bind, lift, ret.
      now destruct (merge_chunk_results_json results).
  - unfold ret. cbn [snd]. rewrite Nat.add_0_r. now destruct st.
Qed.

(** X13. [extract_to_json] makes no request for a document without
    text, one request for a text of at most 20000 characters, and one
    request for every chunk of a longer text, whatever the service
    answers; it writes no file. *)
Theorem extract_to_json_requests (w : World) (pdf_path : string) (st : Store) :
  let text := extract_text_from_pdf w pdf_path in
  let st' := snd (extract_to_json w pdf_path st) in
  written st' = written st /\
  (nonempty text = false -> requests st' = requests st) /\
  (nonempty text = true -> len text <= 20000 ->
   requests st' = S (requests st)) /\
  (20000 < len text ->
   requests st' = (requests st + List.length (chunk_text text 20000))%nat).
Proof.
  intros text st'. unfold st'. rewrite extract_to_json_state. fold text. simpl.
  split; [reflexivity|]. split; [|split].
  - intros ->. lia.
  - intros -> Hle. apply Z.leb_le in Hle.
    unfold max_chars_per_chunk. rewrite Hle. lia.
  - intros Hlt.
    assert (Hne : nonempty text = true).
    { destruct text; [|reflexivity]. change (len "") with 0 in Hlt. lia. }
    rewrite Hne. apply Z.leb_gt in Hlt.
    unfold max_chars_per_chunk. now rewrite Hlt.
Qed.

Lemma extract_to_json_requests_witness :
  requests (snd (extract_to_json flaky_world "doc.pdf" fresh)) = 1%nat /\
  requests (snd (extract_to_json service_down "manual.pdf" fresh))
  = (requests fresh
     + List.length
         (chunk_text (extract_text_from_pdf service_down "manual.pdf") 20000))%nat.
Proof.
  split.
  - apply (proj1 (proj2 (proj2 (extract_to_json_requests
                                  flaky_world "doc.pdf" fresh)))).
    + reflexivity.
    + vm_compute. discriminate.
  - apply (proj2 (proj2 (proj2 (extract_to_json_requests
                                  service_down "manual.pdf" fresh)))).
    vm_compute. reflexivity.
Defined.

(** A short document: the outcome is decided by the answer to the one
    request. *)
Lemma extract_to_json_short (w : World) (pdf_path : string) (st : Store) :
  let text := extract_text_from_pdf w pdf_path in
  nonempty text = true -> len text <= 20000 ->
  fst (extract_to_json w pdf_path st)
  = set_metadata
      (match service w (requests st) text with
       | Fails e => JDict (error_record e 1)
       | Responds r => r
       end)
      (metadata_of w pdf_path "groq_llm").
Proof.
  intros text Hne Hle. unfold extract_to_json. fold text.
  rewrite Hne. cbn [negb].
  apply Z.leb_le in Hle. unfold max_chars_per_chunk. rewrite Hle.
  assert (Hgt : (len text >? 20000) = false).
  { rewrite Z.gtb_ltb. apply Z.ltb_ge. now apply Z.leb_le. }
  rewrite Hgt. unfold bind.
  rewrite extract_chunk_single_attempt, extract_chunk_body_returns.
  reflexivity.
Qed.

Lemma set_metadata_raises (r meta : json) (e : pyexc) :
  set_metadata r meta = Raise e -> exc_type e = "TypeError".
Proof. destruct r; cbn; intros H; inversion H; reflexivity. Qed.

Lemma set_metadata_returns (r meta : json) (d : dict) :
  set_metadata r meta = Ok d -> dict_get d "_metadata" = Some meta.
Proof.
  destruct r; cbn; intros H; inversion H; subst. apply dict_get_set_same.
Qed.

(** X14. What [extract_to_json] gives for a document. Without text it
    returns the record with the error message and the file, and makes no
    request. With text, a record it returns carries under [_metadata]
    the base name of the file, its size, the model and the method
    ([groq_llm_chunked] for a text of more than 20000 characters,
    [groq_llm] otherwise), and what it raises is a [TypeError] or an
    [AttributeError]. For a text of at most 20000 characters it returns
    the answer of the service with the metadata when the answer is an
    object, the error record with the metadata when the request fails,
    and raises [TypeError] when the answer is any other JSON value. *)
Theorem extract_to_json_outcome (w : World) (pdf_path : string) (st : Store) :
  let text := extract_text_from_pdf w pdf_path in
  let method := if 20000 <? len text then "groq_llm_chunked" else "groq_llm" in
  (nonempty text = false ->
   extract_to_json w pdf_path st
   = (Ok [("error", JStr "Failed to extract text from PDF");
          ("file", JStr pdf_path)], st)) /\
  (nonempty text = true ->
   match fst (extract_to_json w pdf_path st) with
   | Ok r =>
       dict_get r "_metadata"
       = Some (JDict
                 [("source_file", JStr (basename pdf_path));
                  ("file_size_mb", JFloat (file_size_mb w pdf_path));
                  ("model_used", JStr (model w));
                  ("extraction_method", JStr method)])
   | Raise e => exc_type e = "TypeError" \/ exc_type e = "AttributeError"
   end) /\
  (nonempty text = true -> len text <= 20000 ->
   (forall d, service w (requests st) text = Responds (JDict d) ->
              fst (extract_to_json w pdf_path st)
              = Ok (dict_set d "_metadata" (metadata_of w pdf_path "groq_llm")))
   /\
   (forall e, service w (requests st) text = Fails e ->
              fst (extract_to_json w pdf_path st)
              = Ok [("error", JStr (exc_msg e)); ("chunk", JInt 1);
                    ("_metadata", metadata_of w pdf_path "groq_llm")])
   /\
   (forall answer, service w (requests st) text = Responds answer ->
                   (forall d, answer <> JDict d) ->
                   exists e, fst (extract_to_json w pdf_path st) = Raise e /\
                             exc_type e = "TypeError")).
Proof.
  intros text method. split; [|split].
  - intros Hne. unfold extract_to_json. fold text. now rewrite Hne.
  - intros Hne. destruct (Z.le_gt_cases (len text) 20000) as [Hle|Hgt].
    + rewrite (extract_to_json_short w pdf_path st Hne Hle). fold text.
      assert (Hm : method = "groq_llm").
      { unfold method. apply Z.ltb_ge in Hle. now rewrite Hle. }
      rewrite Hm.
      destruct (set_metadata _ _) as [d|e] eqn:E.
      * exact (set_metadata_returns _ _ _ E).
      * left. exact (set_metadata_raises _ _ _ E).
    + assert (Hm : method = "groq_llm_chunked").
      { unfold method. apply Z.ltb_lt in Hgt. now rewrite Hgt. }
      rewrite Hm. unfold extract_to_json. fold text.
      rewrite Hne. cbn [negb]. unfold max_chars_per_chunk.
      pose proof Hgt as Hgt'. apply Z.leb_gt in Hgt'. rewrite Hgt'.
      rewrite Z.gtb_ltb. apply Z.ltb_lt in Hgt. rewrite Hgt.
      unfold bind at 1.
      destruct (extract_chunks_returns w (chunk_text text 20000) 1
                  (Z.of_nat (List.length (chunk_text text 20000))) st)
        as (results & Hr & _).
      rewrite Hr. unfold bind, lift, ret.
      destruct (merge_chunk_results_json results) as [m|e] eqn:Hmerge;
        cbn [fst].
      * apply dict_get_set_same.
      * exact (merge_json_raises _ _ Hmerge).
  - intros Hne Hle.
    rewrite (extract_to_json_short w pdf_path st Hne Hle). fold text.
    split; [|split].
    + intros d ->. reflexivity.
    + intros e ->. reflexivity.
    + intros answer -> Hnot.
      destruct answer; cbn; try (eexists; split; reflexivity).
      elim (Hnot entries). reflexivity.
Qed.

Lemma extract_to_json_outcome_witness :
  exists e,
    fst (extract_to_json answers_list "doc.pdf" fresh) = Raise e /\
    exc_type e = "TypeError".
Proof.
  apply (proj2 (proj2 (proj2 (proj2 (extract_to_json_outcome
                                      answers_list "doc.pdf" fresh))
                               eq_refl ltac:(vm_compute; discriminate))))
    with (answer := JList [JInt 1; JInt 2]).
  - reflexivity.
  - intros d H. discriminate H.
Defined.

(** X15. When the service fails on every request, a document of more
    than 20000 characters still gives a record without error marker:
    the record with all scalar fields null and all nested fields and
    lists empty, with its metadata. *)
Theorem extract_to_json_service_down (w : World) (pdf_path : string) (st : Store) :
  let text := extract_text_from_pdf w pdf_path in
  20000 < len text ->
  (forall k chunk, exists e, service w k chunk = Fails e) ->
  fst (extract_to_json w pdf_path st)
  = Ok (dict_set all_null "_metadata"
          (JDict
             [("source_file", JStr (basename pdf_path));
              ("file_size_mb", JFloat (file_size_mb w pdf_path));
              ("model_used", JStr (model w));
              ("extraction_method", JStr "groq_llm_chunked")])).
Proof.
  intros text Hlen Hdown. unfold extract_to_json. fold text.
  assert (Hne : nonempty text = true).
  { destruct text; [|reflexivity]. change (len "") with 0 in Hlen. lia. }
  rewrite Hne. cbn [negb]. rewrite Z.gtb_ltb.
  unfold max_chars_per_chunk.
  pose proof Hlen as Hlt. apply Z.ltb_lt in Hlt. rewrite Hlt.
  apply Z.leb_gt in Hlen. rewrite Hlen.
  unfold bind at 1.
  destruct (extract_chunks_returns w (chunk_text text 20000) 1
              (Z.of_nat (List.length (chunk_text text 20000))) st)
    as (results & Hr & _).
  rewrite Hr. unfold bind, lift, ret.
  assert (Hm : merge_chunk_results_json results = Ok initial_merged).
  { unfold merge_chunk_results_json.
    rewrite (merge_loop_all_errors results
               (extract_chunks_all_fail w _ Hdown _ _ _ _ _ Hr)).
    reflexivity. }
  rewrite Hm. reflexivity.
Qed.

Lemma extract_to_json_service_down_witness :
  dict_mem
    (dict_set all_null "_metadata"
       (JDict
          [("source_file", JStr "manual.pdf");
           ("file_size_mb", JFloat (S754_zero false));
           ("model_used", JStr "llama-3.3-70b-versatile");
           ("extraction_method", JStr "groq_llm_chunked")]))
    "error" = false
  /\ fst (extract_to_json service_down "docs/manual.pdf" fresh)
     = Ok (dict_set all_null "_metadata"
             (JDict
                [("source_file", JStr "manual.pdf");
                 ("file_size_mb", JFloat (S754_zero false));
                 ("model_used", JStr "llama-3.3-70b-versatile");
                 ("extraction_method", JStr "groq_llm_chunked")])).
Proof.
  split; [reflexivity|].
  apply (extract_to_json_service_down service_down "docs/manual.pdf" fresh).
  - vm_compute. reflexivity.
  - intros k chunk. eexists. reflexivity.
Defined.

(** ** More on the batches *)

Lemma extract_to_json_written (w : World) (pdf_path : string) (st : Store) :
  written (snd (extract_to_json w pdf_path st)) = written st.
Proof. now rewrite extract_to_json_state. Qed.

(** One document of a batch: an entry is added for it. It is counted as
    a success when [extract_to_json] returns and the file is written,
    and then the file named after the document holds what
    [extract_to_json] returned; it is counted as a failure, with no file
    written, when [extract_to_json] or the write raises. *)
Lemma process_one_cases (w : World) (output_dir pdf_path : string)
    (n s f : Z) (files : list json) (st : Store) :
  exists entry st',
    entry_input entry = Some (JStr pdf_path) /\
    ((process_one w output_dir (summary n s f files) pdf_path st
      = (Ok (summary n (s + 1) f (append_item files entry)), st') /\
      has_status "success" entry = true /\
      has_status "failed" entry = false /\
      exists data,
        entry = success_entry output_dir pdf_path /\
        fst (extract_to_json w pdf_path st) = Ok data /\
        written st'
        = (output_path_of output_dir pdf_path, JDict data) :: written st)
     \/
     (process_one w output_dir (summary n s f files) pdf_path st
      = (Ok (summary n s (f + 1) (append_item files entry)), st') /\
      has_status "success" entry = false /\
      has_status "failed" entry = true /\
      written st' = written st)).
Proof.
  pose proof (extract_to_json_written w pdf_path st) as Hw.
  unfold process_one, try_except, bind.
  destruct (extract_to_json w pdf_path st) as [[json_data|e] st1];
    cbn [fst snd] in *.
  - unfold write_json. rewrite Hw.
    fold (output_path_of output_dir pdf_path).
    destruct (write_error w (List.length (written st))
                (output_path_of output_dir pdf_path)) as [e|].
    + exists (failed_entry pdf_path e), st1.
      split; [reflexivity|]. right.
      split; [reflexivity|]. split; [reflexivity|].
      split; [reflexivity | exact Hw].
    + eexists (success_entry output_dir pdf_path), _.
      split; [reflexivity|]. left.
      split; [reflexivity|]. split; [reflexivity|]. split; [reflexivity|].
      exists json_data. cbn [written]. now repeat split.
  - exists (failed_entry pdf_path e), st1.
    split; [reflexivity|]. right.
    split; [reflexivity|]. split; [reflexivity|].
      split; [reflexivity | exact Hw].
Qed.

Lemma count_status_append (status : string) (files : list json) (entry : json) :
  count_status status (append_item files entry)
  = count_status status files + (if has_status status entry then 1 else 0).
Proof.
  unfold count_status, append_item. rewrite filter_app, length_app. simpl.
  destruct (has_status status entry); simpl; lia.
Qed.

Lemma count_status_cons (status : string) (files : list json) (entry : json) :
  count_status status (entry :: files)
  = (if has_status status entry then 1 else 0) + count_status status files.
Proof.
  unfold count_status. cbn [filter].
  destruct (has_status status entry); cbn [List.length]; lia.
Qed.

(** All the documents of a batch: the entries added, in the order of the
    documents, and the files written, latest first. *)
Lemma process_all_trace (w : World) (output_dir : string)
    (pdf_paths : list string) :
  forall (n s f : Z) (files : list json) (st : Store),
  exists (added : list json) (new : list (string * json)) (st' : Store),
    process_all w output_dir (summary n s f files) pdf_paths st
    = (Ok (summary n (s + count_status "success" added)
             (f + count_status "failed" added) (files ++ added)%list), st') /\
    written st' = (new ++ written st)%list /\
    count_status "success" added + count_status "failed" added
    = Z.of_nat (List.length pdf_paths) /\
    map entry_input added = map (fun p => Some (JStr p)) pdf_paths /\
    Forall2 (document_written w output_dir)
            (filter (has_status "success") added) (rev new).
Proof.
  induction pdf_paths as [|pdf_path rest IH]; intros n s f files st.
  - exists [], [], st. cbn [process_all]. unfold ret.
    change (count_status "success" []) with 0.
    change (count_status "failed" []) with 0.
    rewrite !Z.add_0_r, app_nil_r.
    repeat split. constructor.
  - cbn [process_all]. unfold bind.
    destruct (process_one_cases w output_dir pdf_path n s f files st)
      as (entry & st1 & Hin & [(H1 & Hs & Hf & data & He & Hd & Hw)
                              |(H1 & Hs & Hf & Hw)]).
    + rewrite H1.
      destruct (IH n (s + 1) f (append_item files entry) st1)
        as (added & new & st' & H & Hnew & Hcount & Hmap & Hdocs).
      exists (entry :: added), (new ++ [(output_path_of output_dir pdf_path,
                                         JDict data)])%list, st'.
      rewrite H, !count_status_cons, Hs, Hf.
      unfold append_item. rewrite <- app_assoc. cbn [app].
      split; [do 3 f_equal; lia|].
      split; [now rewrite Hnew, Hw, <- app_assoc|].
      split; [cbn [List.length]; lia|].
      split; [cbn [map]; now rewrite Hin, Hmap|].
      cbn [filter]. rewrite Hs, rev_app_distr. cbn [rev app].
      constructor; [|exact Hdocs].
      exists pdf_path, data, st. now repeat split.
    + rewrite H1.
      destruct (IH n s (f + 1) (append_item files entry) st1)
        as (added & new & st' & H & Hnew & Hcount & Hmap & Hdocs).
      exists (entry :: added), new, st'.
      rewrite H, !count_status_cons, Hs, Hf.
      unfold append_item. rewrite <- app_assoc. cbn [app].
      split; [do 3 f_equal; lia|].
      split; [now rewrite Hnew, Hw|].
      split; [cbn [List.length]; lia|].
      split; [cbn [map]; now rewrite Hin, Hmap|].
      cbn [filter]. rewrite Hs. exact Hdocs.
Qed.

Lemma makedirs_ok (w : World) (output_dir : string) (st : Store) :
  nonempty output_dir = true -> makedirs_error w output_dir = None ->
  makedirs w output_dir st = (Ok tt, st).
Proof. intros Hne Hm. unfold makedirs. now rewrite Hne, Hm. Qed.

(** A batch whose output directory can be made: the documents are
    processed, then the summary is written. *)
Lemma batch_process_trace (w : World) (pdf_paths : list string)
    (output_dir : string) (st : Store) :
  nonempty output_dir = true -> makedirs_error w output_dir = None ->
  exists (files : list json) (new : list (string * json)) (st1 : Store),
    let results :=
      summary (Z.of_nat (List.length pdf_paths))
              (count_status "success" files) (count_status "failed" files)
              files in
    batch_process w pdf_paths output_dir st
    = match write_error w (List.length (written st1))
              (summary_path output_dir) with
      | Some e => (Raise e, st1)
      | None =>
          (Ok results,
           {| requests := requests st1;
              written := (summary_path output_dir, JDict results)
                           :: written st1 |})
      end /\
    written st1 = (new ++ written st)%list /\
    List.length new = Z.to_nat (count_status "success" files) /\
    count_status "success" files + count_status "failed" files
    = Z.of_nat (List.length pdf_paths) /\
    map entry_input files = map (fun p => Some (JStr p)) pdf_paths /\
    Forall2 (document_written w output_dir)
            (filter (has_status "success") files) (rev new).
Proof.
  intros Hne Hm. unfold batch_process. unfold bind at 1.
  rewrite (makedirs_ok _ _ _ Hne Hm).
  destruct (process_all_trace w output_dir pdf_paths
              (Z.of_nat (List.length pdf_paths)) 0 0 [] st)
    as (files & new & st1 & H & Hnew & Hcount & Hmap & Hdocs).
  exists files, new, st1. cbn zeta.
  fold (summary (Z.of_nat (List.length pdf_paths)) 0 0 []).
  unfold bind at 1. rewrite H. cbn [app]. rewrite !Z.add_0_l.
  split; [|split; [exact Hnew|split; [|now repeat split]]].
  - unfold bind, write_json, ret. fold (summary_path output_dir).
    now destruct (write_error w (List.length (written st1))
                    (summary_path output_dir)).
  - apply Forall2_length in Hdocs. rewrite length_rev in Hdocs.
    unfold count_status. now rewrite Nat2Z.id.
Qed.

(** X16. A batch whose output directory cannot be made raises before any
    document is processed; the empty directory name always does, with
    [FileNotFoundError]. Otherwise every document is processed, whatever
    happens to each, and then the summary is written: [total] is the
    number of documents, [successful] and [failed] add up to it and
    count the entries with that status, and [files] has one entry for
    every document, in the order of the documents. The batch returns
    this summary when it can be written, after the files of the
    successful documents, and raises what the write raises when it
    cannot. *)
Theorem batch_summary_counts (w : World) (pdf_paths : list string)
    (output_dir : string) (st : Store) :
  (nonempty output_dir = false ->
   exists e, batch_process w pdf_paths output_dir st = (Raise e, st) /\
             exc_type e = "FileNotFoundError") /\
  (forall e, nonempty output_dir = true ->
             makedirs_error w output_dir = Some e ->
             batch_process w pdf_paths output_dir st = (Raise e, st)) /\
  (nonempty output_dir = true -> makedirs_error w output_dir = None ->
   exists (s f : Z) (files : list json),
     s + f = Z.of_nat (List.length pdf_paths) /\
     s = count_status "success" files /\
     f = count_status "failed" files /\
     map entry_input files = map (fun p => Some (JStr p)) pdf_paths /\
     fst (batch_process w pdf_paths output_dir st)
     = match write_error w (Z.to_nat s + List.length (written st))
               (path_join output_dir "_batch_summary.json") with
       | Some e => Raise e
       | None =>
           Ok [("total", JInt (Z.of_nat (List.length pdf_paths)));
               ("successful", JInt s); ("failed", JInt f);
               ("files", JList files)]
       end).
Proof.
  split; [|split].
  - intros Hne. unfold batch_process, bind, makedirs. rewrite Hne.
    eexists. split; reflexivity.
  - intros e Hne Hm. unfold batch_process, bind, makedirs.
    now rewrite Hne, Hm.
  - intros Hne Hm.
    destruct (batch_process_trace w pdf_paths output_dir st Hne Hm)
      as (files & new & st1 & H & Hnew & Hlen & Hcount & Hmap & _).
    cbn zeta in H. unfold summary_path in H.
    exists (count_status "success" files), (count_status "failed" files),
      files.
    split; [exact Hcount|]. split; [reflexivity|]. split; [reflexivity|].
    split; [exact Hmap|].
    rewrite H. clear H. rewrite Hnew, length_app, Hlen.
    destruct (write_error w _ _); reflexivity.
Qed.

Lemma batch_summary_counts_witness :
  (exists (s f : Z) (files : list json),
      s + f = 2 /\
      fst (batch_process flaky_world ["a.pdf"; "b.pdf"] "out" fresh)
      = Ok [("total", JInt 2); ("successful", JInt s); ("failed", JInt f);
            ("files", JList files)]) /\
  fst (batch_process read_only ["a.pdf"; "b.pdf"] "out" fresh)
  = Raise (Exc "PermissionError" "[Errno 13] Permission denied").
Proof.
  split.
  - destruct (proj2 (proj2 (batch_summary_counts
                              flaky_world ["a.pdf"; "b.pdf"] "out" fresh))
                eq_refl eq_refl)
      as (s & f & files & Hsum & _ & _ & _ & H).
    exists s, f, files. split; [exact Hsum | exact H].
  - destruct (proj2 (proj2 (batch_summary_counts
                              read_only ["a.pdf"; "b.pdf"] "out" fresh))
                eq_refl eq_refl)
      as (s & f & files & _ & _ & _ & _ & H).
    exact H.
Defined.



(** A short document is counted as successful when the answer is an
    object or the request fails, and the file can be written. *)
Lemma extract_to_json_short_returns (w : World) (pdf_path : string)
    (st : Store) :
  len (extract_text_from_pdf w pdf_path) <= 20000 ->
  (forall k chunk answer, service w k chunk = Responds answer ->
                          is_object answer) ->
  exists r, fst (extract_to_json w pdf_path st) = Ok r.
Proof.
  intros Hle Hobj.
  destruct (nonempty (extract_text_from_pdf w pdf_path)) eqn:Hne.
  - rewrite (extract_to_json_short w pdf_path st Hne Hle).
    destruct (service w (requests st) (extract_text_from_pdf w pdf_path))
      as [e|answer] eqn:E; [now eexists|].
    destruct (Hobj _ _ _ E) as [d ->]. now eexists.
  - unfold extract_to_json. rewrite Hne. now eexists.
Qed.

Lemma process_all_short (w : World) (output_dir : string)
    (pdf_paths : list string) :
  (forall p, In p pdf_paths -> len (extract_text_from_pdf w p) <= 20000) ->
  (forall k chunk answer, service w k chunk = Responds answer ->
                          is_object answer) ->
  (forall k path, write_error w k path = None) ->
  forall (n s f : Z) (files : list json) (st : Store),
  exists files' st',
    process_all w output_dir (summary n s f files) pdf_paths st
    = (Ok (summary n (s + Z.of_nat (List.length pdf_paths)) f files'), st').
Proof.
  intros Hshort Hobj Hwrite.
  induction pdf_paths as [|pdf_path rest IH]; intros n s f files st.
  - exists files, st. cbn [process_all List.length]. unfold ret.
    now rewrite Z.add_0_r.
  - cbn [process_all]. unfold bind at 1.
    destruct (extract_to_json_short_returns w pdf_path st) as [r Hr];
      [apply Hshort; now left | exact Hobj|].
    assert (H1 : exists st1,
               process_one w output_dir (summary n s f files) pdf_path st
               = (Ok (summary n (s + 1) f
                        (append_item files (success_entry output_dir pdf_path))),
                  st1)).
    { unfold process_one, try_except, bind.
      destruct (extract_to_json w pdf_path st) as [[json_data|e] st1];
        cbn [fst] in Hr; [|discriminate].
      unfold write_json. rewrite Hwrite. eexists. reflexivity. }
    destruct H1 as [st1 H1]. rewrite H1.
    destruct (IH (fun p Hp => Hshort p (or_intror Hp)) n (s + 1) f
                (append_item files (success_entry output_dir pdf_path)) st1)
      as (files' & st' & H).
    exists files', st'. rewrite H.
    replace (s + Z.of_nat (List.length (pdf_path :: rest)))
      with (s + 1 + Z.of_nat (List.length rest)); [reflexivity|].
    cbn [List.length]. lia.
Qed.

(** X18. A batch counts every document as successful and none as failed
    when its output directory can be made, every file can be written,
    every document has at most 20000 characters of text (or no text, or
    cannot be read), and the service answers with objects only when it
    answers: failed requests do not make a document fail. *)
Theorem batch_short_documents (w : World) (pdf_paths : list string)
    (output_dir : string) (st : Store) :
  nonempty output_dir = true -> makedirs_error w output_dir = None ->
  (forall k path, write_error w k path = None) ->
  (forall p, In p pdf_paths -> len (extract_text_from_pdf w p) <= 20000) ->
  (forall k chunk answer, service w k chunk = Responds answer ->
                          is_object answer) ->
  exists files : list json,
    fst (batch_process w pdf_paths output_dir st)
    = Ok [("total", JInt (Z.of_nat (List.length pdf_paths)));
          ("successful", JInt (Z.of_nat (List.length pdf_paths)));
          ("failed", JInt 0); ("files", JList files)].
Proof.
  intros Hne Hm Hwrite Hshort Hobj. unfold batch_process. unfold bind at 1.
  rewrite (makedirs_ok _ _ _ Hne Hm).
  destruct (process_all_short w output_dir pdf_paths Hshort Hobj Hwrite
              (Z.of_nat (List.length pdf_paths)) 0 0 [] st)
    as (files & st' & H).
  exists files.
  fold (summary (Z.of_nat (List.length pdf_paths)) 0 0 []).
  unfold bind at 1. rewrite H.
  unfold bind, write_json. rewrite Hwrite. reflexivity.
Qed.

Lemma batch_short_documents_witness :
  exists files : list json,
    fst (batch_process flaky_world ["a.pdf"; "b.pdf"] "out" fresh)
    = Ok [("total", JInt 2); ("successful", JInt 2);
          ("failed", JInt 0); ("files", JList files)].
Proof.
  apply (batch_short_documents flaky_world ["a.pdf"; "b.pdf"] "out" fresh).
  - reflexivity.
  - reflexivity.
  - reflexivity.
  - intros p _. vm_compute. discriminate.
  - intros k chunk answer H. cbn in H.
    destruct k as [|[|k]]; inversion H. now eexists.
Defined.

(** ** The crawler *)

Lemma endswith_iff (s suffix : string) :
  endswith s suffix = true <-> exists prefix, s = prefix ++ suffix.
Proof.
  induction s as [|c s IH]; cbn [endswith].
  - rewrite orb_false_r, String.eqb_eq. split.
    + intros <-. now exists "".
    + intros (prefix & H). symmetry in H. apply append_empty in H.
      destruct H as [_ H]. now subst.
  - rewrite orb_true_iff, String.eqb_eq, IH. split.
    + intros [<-|(prefix & ->)]; [now exists "" | now exists (String c prefix)].
    + intros (prefix & H). destruct prefix as [|c' prefix]; simpl in H.
      * now left.
      * right. inversion H; subst. now exists prefix.
Qed.

Lemma pdf_files_iff (tree : list (string * list string)) (p : string) :
  In p (pdf_files_of tree) <->
  exists root names name stem,
    In (root, names) tree /\ In name names /\
    name = stem ++ ".pdf" /\ p = path_join root name.
Proof.
  unfold pdf_files_of. rewrite in_flat_map. split.
  - intros ([root names] & Hin & Hp). apply in_map_iff in Hp.
    destruct Hp as (name & <- & Hname). apply filter_In in Hname.
    destruct Hname as [Hname Hend]. apply endswith_iff in Hend.
    destruct Hend as [stem ->].
    exists root, names, (stem ++ ".pdf"), stem. now repeat split.
  - intros (root & names & name & stem & Hin & Hname & -> & ->).
    exists (root, names). split; [exact Hin|].
    apply in_map. apply filter_In. split; [exact Hname|].
    apply endswith_iff. now exists stem.
Qed.

(** X19. [process_downloaded_pdfs] hands to the batch the files of the
    walked directories whose name ends in [.pdf], in lower case, each
    under its directory. When the output directory can be made and the
    summary written, the summary it returns has their number as total
    and an entry for each of them, in the order of the walk. *)
Theorem process_downloaded_pdfs_summary (w : World)
    (tree : list (string * list string)) (output_dir : string) (st : Store) :
  (forall p, In p (pdf_files_of tree) <->
             exists root names name stem,
               In (root, names) tree /\ In name names /\
               name = stem ++ ".pdf" /\ p = path_join root name) /\
  (nonempty output_dir = true -> makedirs_error w output_dir = None ->
   (forall k, write_error w k (path_join output_dir "_batch_summary.json")
              = None) ->
   exists (s f : Z) (files : list json),
     fst (process_downloaded_pdfs w tree output_dir st)
     = Ok [("total", JInt (Z.of_nat (List.length (pdf_files_of tree))));
           ("successful", JInt s); ("failed", JInt f);
           ("files", JList files)] /\
     s + f = Z.of_nat (List.length (pdf_files_of tree)) /\
     map entry_input files
     = map (fun p => Some (JStr p)) (pdf_files_of tree)).
Proof.
  split; [apply pdf_files_iff|].
  intros Hne Hm Hw. unfold process_downloaded_pdfs.
  destruct (batch_process_trace w (pdf_files_of tree) output_dir st Hne Hm)
    as (files & new & st1 & H & _ & _ & Hcount & Hmap & _).
  cbn zeta in H. unfold summary_path in H. rewrite Hw in H.
  exists (count_status "success" files), (count_status "failed" files), files.
  rewrite H. repeat split; [exact Hcount | exact Hmap].
Qed.

Lemma process_downloaded_pdfs_summary_witness :
  exists (s f : Z) (files : list json),
    fst (process_downloaded_pdfs flaky_world
           [("downloads", ["a.pdf"; "notes.txt"; "b.PDF"]);
            ("downloads/anthem", ["c.pdf"])] "kb" fresh)
    = Ok [("total", JInt 2); ("successful", JInt s); ("failed", JInt f);
          ("files", JList files)] /\
    map entry_input files
    = [Some (JStr "downloads/a.pdf"); Some (JStr "downloads/anthem/c.pdf")].
Proof.
  destruct (proj2 (process_downloaded_pdfs_summary flaky_world
                     [("downloads", ["a.pdf"; "notes.txt"; "b.PDF"]);
                      ("downloads/anthem", ["c.pdf"])] "kb" fresh)
              eq_refl eq_refl (fun _ => eq_refl))
    as (s & f & files & H & _ & Hmap).
  exists s, f, files. split; [exact H | exact Hmap].
Defined.
